(** * OpenAlex works explorer: a shallow embedding of [server.py]

    The server shapes the records of a bibliographic dataset for an automated
    caller: it projects records to requested fields, condenses them to
    summaries, rebuilds abstracts from inverted indexes and wraps every
    request handler in a handler of exceptions.

    The embedding follows the Python source function by function.  Python
    values are the JSON values the dataset delivers; a [dict] is an
    insertion-ordered association list, because the abstract reconstruction
    iterates an index in insertion order and a later entry overwrites an
    earlier one.  Code that can raise lives in the monad [result]; the request
    handlers, which talk to the dataset client, live in the monad [M], which
    also records every call made to the client. *)

From Stdlib Require Import ZArith String Ascii List Lia.
From stdpp Require Import base option list strings pretty.

Import ListNotations.
Set Warnings "-register-all".
Open Scope string_scope.
Open Scope list_scope.

(** ** Python values *)

(** The values found in a record.  JSON numbers are modelled by integers: no
    operation of the server computes with them, they are only tested for
    truth and passed on. *)
Inductive json : Type :=
  | JNull
  | JBool (b : bool)
  | JNum (n : Z)
  | JStr (s : string)
  | JList (l : list json)
  | JObj (d : list (string * json)).

(** A Python [dict] with string keys, in insertion order. *)
Definition dict : Type := list (string * json).

(** Python's truth value of an object, as tested by [if x], [not x],
    [x and y]. *)
Definition truthy (v : json) : bool :=
  match v with
  | JNull => false
  | JBool b => b
  | JNum n => negb (Z.eqb n 0)
  | JStr s => negb (String.eqb s EmptyString)
  | JList l => match l with [] => false | _ => true end
  | JObj d => match d with [] => false | _ => true end
  end.

(** [v is None] *)
Definition is_none (v : json) : bool :=
  match v with JNull => true | _ => false end.

(** ** Exceptions *)

Inductive exn_class : Type :=
  | KeyError
  | AttributeError
  | TypeError
  | ValueError
  | IndexError
  | StopIteration
  | ClientError.   (* any other subclass of [Exception], raised by the client *)

(** What [hasattr(e, 'response')] and [e.response.status_code] find on an
    exception: no such attribute, the attribute set to [None] (the HTTP
    library sets it so on connection failures), or a response with a status
    code. *)
Inductive response_attr : Type :=
  | NoResponseAttr
  | ResponseNone
  | ResponseStatus (code : Z).

(** An exception object: its class, [str(e)] and its [response] attribute.
    Only subclasses of [Exception] are modelled. *)
Record exn : Type := mkExn {
  exn_class_of : exn_class;
  exn_str : string;
  exn_response : response_attr
}.

(** An exception raised by the interpreter or by the server's own code
    carries no [response] attribute. *)
Definition builtin_exn (c : exn_class) (msg : string) : exn :=
  mkExn c msg NoResponseAttr.

(** ** The monad of code that may raise *)

Inductive result (A : Type) : Type :=
  | Ok (a : A)
  | Raise (e : exn).
Arguments Ok {A} a.
Arguments Raise {A} e.

Definition rbind {A B} (m : result A) (f : A -> result B) : result B :=
  match m with
  | Ok a => f a
  | Raise e => Raise e
  end.

Declare Scope result_scope.
Delimit Scope result_scope with result.
Notation "x <- m ;; k" := (rbind m (fun x => k))
  (at level 100, m at next level, right associativity) : result_scope.
Open Scope result_scope.

(** [try: body except Exception as e: handler(e)] *)
Definition try_except {A} (body : result A) (handler : exn -> result A)
  : result A :=
  match body with
  | Ok a => Ok a
  | Raise e => handler e
  end.

Fixpoint mapM {A B} (f : A -> result B) (l : list A) : result (list B) :=
  match l with
  | [] => Ok []
  | x :: xs => y <- f x ;; ys <- mapM f xs ;; Ok (y :: ys)
  end.

(** ** Dictionaries *)

Module Dict.

(** [d.get(k)] as an option; the first entry of a key is the one found. *)
Fixpoint get (d : dict) (k : string) : option json :=
  match d with
  | [] => None
  | (k', v) :: d' => if String.eqb k' k then Some v else get d' k
  end.

(** [k in d] *)
Definition mem (d : dict) (k : string) : bool :=
  match get d k with Some _ => true | None => false end.

(** [d[k] = v]: an existing key keeps its place, a new one goes last. *)
Fixpoint set (d : dict) (k : string) (v : json) : dict :=
  match d with
  | [] => [(k, v)]
  | (k', v') :: d' =>
      if String.eqb k' k then (k, v) :: d' else (k', v') :: set d' k v
  end.

(** [del d[k]], used by the server only after testing [k in d]. *)
Definition del (d : dict) (k : string) : dict :=
  List.filter (fun kv => negb (String.eqb (fst kv) k)) d.

(** [{k: v for k, v in d.items() if p(k)}] *)
Definition comprehension (p : string -> bool) (d : dict) : dict :=
  List.filter (fun kv => p (fst kv)) d.

Definition keys (d : dict) : list string := List.map fst d.

End Dict.

(** The name Python gives the type of a value in its error messages. *)
Definition type_name (v : json) : string :=
  match v with
  | JNull => "NoneType"
  | JBool _ => "bool"
  | JNum _ => "int"
  | JStr _ => "str"
  | JList _ => "list"
  | JObj _ => "dict"
  end.

(** [d.get(k)] and [d.get(k, default)] on a dict. *)
Definition dict_get_default (d : dict) (k : string) (default : json) : json :=
  match Dict.get d k with
  | Some v => v
  | None => default
  end.

(** [x.get(k, default)] on an arbitrary object: only a dict has the method. *)
Definition py_get (x : json) (k : string) (default : json) : result json :=
  match x with
  | JObj d => Ok (dict_get_default d k default)
  | _ => Raise (builtin_exn AttributeError
                  ("'" ++ type_name x ++ "' object has no attribute 'get'"))
  end.

(** [s in l] for a list of strings. *)
Definition str_in (s : string) (l : list string) : bool :=
  existsb (String.eqb s) l.

(** [if select_fields:] on an optional list: [None] and [[]] are false. *)
Definition fields_given (select_fields : option (list string)) : bool :=
  match select_fields with
  | Some (_ :: _) => true
  | _ => false
  end.

(** ** Helper functions of the server *)

(** [_select_fields(item, fields)] *)
Definition _select_fields (item : dict) (fields : list string) : dict :=
  let required_ids := ["id"; "doi"] in
  let selected_fields_set := fields ++ required_ids in
  Dict.comprehension (fun k => str_in k selected_fields_set) item.

(** ** Records as the client delivers them *)

(** An instance of [dict]: a plain mapping or the client's record class, a
    subclass of [dict] whose subscript builds the abstract on demand.
    [w_items] is [dict(obj.items())]; [w_abstract] is the outcome of
    evaluating [obj["abstract"]]. *)
Record work : Type := mkWork {
  w_items : dict;
  w_abstract : result json
}.

(** A plain [dict]: the subscript finds the key or raises [KeyError]. *)
Definition plain (d : dict) : work :=
  mkWork d (match Dict.get d "abstract" with
            | Some v => Ok v
            | None => Raise (builtin_exn KeyError "'abstract'")
            end).

(** An object that is not an instance of [dict], described by what the
    server's duck typing asks of it: [None] is a missing attribute,
    [Some r] the outcome of using it. *)
Record foreign : Type := mkForeign {
  f_to_dict : option (result work);          (* [obj.to_dict()] *)
  f_items : option (result dict);            (* [dict(obj.items())] *)
  f_getitem_abstract : option (result json)  (* [obj["abstract"]] *)
}.

Inductive raw : Type :=
  | RMapping (w : work)      (* [isinstance(item, dict)] *)
  | RForeign (o : foreign).

(** ** Iteration and subscripts *)

(** The elements a [for] loop sees: those of a list, the characters of a
    string, the keys of a dict; anything else is not iterable. *)
Definition py_iter (v : json) : result (list json) :=
  match v with
  | JList l => Ok l
  | JStr s => Ok (List.map (fun c => JStr (String c EmptyString))
                           (list_ascii_of_string s))
  | JObj d => Ok (List.map JStr (Dict.keys d))
  | _ => Raise (builtin_exn TypeError
                  ("'" ++ type_name v ++ "' object is not iterable"))
  end.

(** A value used as a list index or compared with [len(words)]: an integer
    (a Python [bool] is one). *)
Definition py_index (v : json) : result Z :=
  match v with
  | JNum n => Ok n
  | JBool b => Ok (Z.b2z b)
  | _ => Raise (builtin_exn TypeError
                  ("'<=' not supported between instances of 'int' and '"
                   ++ type_name v ++ "'"))
  end.

(** ** Abstract reconstruction (the fallback of [get_batch_work_details]) *)

(** The body of the inner loop:
    [while len(words) <= pos: words.append('')] and [words[pos] = word].
    A negative [pos] skips the [while] and indexes from the end of the
    list, or raises [IndexError]. *)
Definition place_word (words : list string) (pos : Z) (word : string)
  : result (list string) :=
  if (0 <=? pos)%Z then
    let p := Z.to_nat pos in
    let words' := words ++ replicate (S p - length words) EmptyString in
    Ok (<[p := word]> words')
  else if (- Z.of_nat (length words) <=? pos)%Z then
    Ok (<[Z.to_nat (Z.of_nat (length words) + pos) := word]> words)
  else Raise (builtin_exn IndexError "list assignment index out of range").

(** [for pos in positions: ...] *)
Fixpoint place_positions (words : list string) (positions : list json)
    (word : string) : result (list string) :=
  match positions with
  | [] => Ok words
  | p :: ps =>
      pos <- py_index p ;;
      words' <- place_word words pos word ;;
      place_positions words' ps word
  end.

(** [for word, positions in inverted_index.items(): ...] *)
Fixpoint place_entries (words : list string) (entries : dict)
  : result (list string) :=
  match entries with
  | [] => Ok words
  | (word, positions) :: rest =>
      ps <- py_iter positions ;;
      words' <- place_positions words ps word ;;
      place_entries words' rest
  end.

(** The branch taken when the record has no subscript: [if inverted_index:]
    rebuilds the text and joins it with single spaces, [else] gives
    [None]. *)
Definition reconstruct_abstract (inverted_index : json) : result json :=
  if truthy inverted_index then
    match inverted_index with
    | JObj entries =>
        words <- place_entries [] entries ;;
        Ok (JStr (String.concat " " words))
    | _ => Raise (builtin_exn AttributeError
                    ("'" ++ type_name inverted_index
                     ++ "' object has no attribute 'items'"))
    end
  else Ok JNull.

(** ** [_process_results] *)

(** The part of the loop body after the conversion to a mapping. *)
Definition process_item (item : work) (select_fields : option (list string))
  : dict :=
  let generated_abstract :=
    match select_fields with
    | None =>
        match w_abstract item with
        | Ok v => v
        | Raise _ => JNull     (* both handlers only log *)
        end
    | Some _ => JNull
    end in
  let dict_item := w_items item in
  let dict_item :=
    if negb (is_none generated_abstract) then
      Dict.set dict_item "abstract" generated_abstract
    else
      match select_fields with
      | None =>
          if negb (Dict.mem dict_item "abstract")
          then Dict.set dict_item "abstract" JNull
          else dict_item
      | Some _ => dict_item
      end in
  match select_fields with
  | Some (f :: fs) => _select_fields dict_item (f :: fs)
  | _ => dict_item
  end.

Fixpoint _process_results (results : list raw)
    (select_fields : option (list string)) : result (list dict) :=
  match results with
  | [] => Ok []
  | RMapping w :: rest =>
      processed <- _process_results rest select_fields ;;
      Ok (process_item w select_fields :: processed)
  | RForeign o :: rest =>
      match f_to_dict o with
      | Some converted =>
          item <- converted ;;
          processed <- _process_results rest select_fields ;;
          Ok (process_item item select_fields :: processed)
      | None => _process_results rest select_fields   (* skipped, logged *)
      end
  end.

(** ** [_summarize_work] *)

(** [authorship.get("author", {}).get("display_name")] *)
Definition author_display_name (authorship : json) : result json :=
  author <- py_get authorship "author" (JObj []) ;;
  py_get author "display_name" JNull.

(** The list comprehension over the authorships: the condition is evaluated
    first, the element expression when it holds. *)
Fixpoint authors_comprehension (authorships : list json)
  : result (list json) :=
  match authorships with
  | [] => Ok []
  | authorship :: rest =>
      c <- author_display_name authorship ;;
      if truthy c then
        name <- author_display_name authorship ;;
        names <- authors_comprehension rest ;;
        Ok (name :: names)
      else authors_comprehension rest
  end.

Definition summary_authors (work_dict : dict) : result (list json) :=
  authorships <- py_iter (dict_get_default work_dict "authorships" (JList [])) ;;
  names <- authors_comprehension authorships ;;
  Ok (firstn 6 names).

Definition summary_venue (work_dict : dict) : result json :=
  venue_source <-
    py_get (dict_get_default work_dict "primary_location" (JObj []))
           "source" (JObj []) ;;
  if truthy venue_source
  then py_get venue_source "display_name" JNull
  else Ok JNull.

Definition summary_oa_url (work_dict : dict) : result json :=
  let best_oa := dict_get_default work_dict "best_oa_location" JNull in
  has_pdf <-
    (if truthy best_oa
     then pdf <- py_get best_oa "pdf_url" JNull ;; Ok (truthy pdf)
     else Ok false) ;;
  if has_pdf : bool then py_get best_oa "pdf_url" JNull
  else
    oa <- py_get (dict_get_default work_dict "open_access" (JObj []))
                 "oa_url" JNull ;;
    if truthy oa
    then py_get (dict_get_default work_dict "open_access" (JObj []))
                "oa_url" JNull
    else Ok JNull.

(** The dictionary [summary_data], in the order the source fills it. *)
Definition summary_data (work_dict : dict) : result dict :=
  authors <- summary_authors work_dict ;;
  venue <- summary_venue work_dict ;;
  oa_url <- summary_oa_url work_dict ;;
  Ok [ ("id", dict_get_default work_dict "id" JNull);
       ("doi", dict_get_default work_dict "doi" JNull);
       ("title", dict_get_default work_dict "title" JNull);
       ("publication_year", dict_get_default work_dict "publication_year" JNull);
       ("authors", JList authors);
       ("cited_by_count", dict_get_default work_dict "cited_by_count" JNull);
       ("venue", venue);
       ("oa_url", oa_url);
       ("abstract", dict_get_default work_dict "abstract" JNull) ].

(** [keys_to_include]: every summary key, or those also in
    [set(select_fields)]. *)
Definition key_included (select_fields : option (list string)) (k : string)
  : bool :=
  match select_fields with
  | None => true
  | Some fs => str_in k fs
  end.

(** [_summarize_work(work_dict, select_fields)].  The source enumerates a
    set of keys, whose order Python leaves open; the summary is listed here
    in the order of [summary_data]. *)
Definition _summarize_work (work_dict : dict)
    (select_fields : option (list string)) : result dict :=
  data <- summary_data work_dict ;;
  Ok (List.filter
        (fun kv => key_included select_fields (fst kv)
                   && negb (is_none (snd kv)))
        data).

(** ** Strings *)

(** [s.split("/")] *)
Fixpoint split_slash (s : string) : list string :=
  match s with
  | EmptyString => [EmptyString]
  | String c rest =>
      if Ascii.eqb c "/" then EmptyString :: split_slash rest
      else match split_slash rest with
           | seg :: segs => String c seg :: segs
           | [] => [String c EmptyString]
           end
  end.

(** [_id.split("/")[-1] if _id.startswith("https://openalex.org/") else _id] *)
Definition strip_url_prefix (work_id : string) : string :=
  if String.prefix "https://openalex.org/" work_id
  then List.last (split_slash work_id) EmptyString
  else work_id.

(** ** The dataset client *)

Inductive search_spec : Type :=
  | NoSearch
  | Search (text : string)                  (* [query.search(text)] *)
  | SearchFilter (field text : string).     (* [query.search_filter(field=text)] *)

(** A query as the builder methods of the client assemble it; building it
    does not contact the dataset. *)
Record query : Type := mkQuery {
  q_search : search_spec;
  q_filter : dict;
  q_sort : list (string * string);
  q_select : option (list string)
}.

Definition Works : query := mkQuery NoSearch [] [] None.

(** One page of a listing; [page_meta] is [None] when the page object has
    no attribute [meta]. *)
Record page : Type := mkPage {
  page_items : list raw;
  page_meta : option json
}.

(** The behaviour of the external client: the outcome of every request the
    server can make.  A lookup gives a record or Python's [None]. *)
Record client : Type := mkClient {
  works_getitem : option (list string) -> string -> result (option work);
  works_get : query -> result (list raw);
  works_count : query -> result Z;
  works_next_page : query -> Z -> option string -> result page;
  works_get_meta : option (query -> result json);
  work_ngrams : work -> result dict
}.

(** The requests sent to the client, in the order they were made. *)
Inductive call : Type :=
  | CallGetItem (select : option (list string)) (work_id : string)
  | CallGet (q : query)
  | CallCount (q : query)
  | CallNextPage (q : query) (per_page : Z) (cursor : option string)
  | CallGetMeta (q : query)
  | CallNgrams (w : work).

Definition trace : Type := list call.

(** ** The monad of the request handlers: exceptions and the call log *)

Definition M (A : Type) : Type := trace -> trace * result A.

Definition mret {A} (a : A) : M A := fun t => (t, Ok a).

Definition mraise {A} (e : exn) : M A := fun t => (t, Raise e).

Definition mbind {A B} (m : M A) (f : A -> M B) : M B :=
  fun t =>
    match m t with
    | (t', Ok a) => f a t'
    | (t', Raise e) => (t', Raise e)
    end.

Definition lift {A} (r : result A) : M A := fun t => (t, r).

(** A request: logged, then answered by the client. *)
Definition request {A} (c : call) (answer : result A) : M A :=
  fun t => (t ++ [c], answer).

(** [try: body except Exception as e: handler(e)] around a handler body. *)
Definition m_try_except {A} (body : M A) (handler : exn -> M A) : M A :=
  fun t =>
    match body t with
    | (t', Ok a) => (t', Ok a)
    | (t', Raise e) => handler e t'
    end.

Declare Scope M_scope.
Delimit Scope M_scope with M.
Notation "x <~ m ;; k" := (mbind m (fun x => k))
  (at level 100, m at next level, right associativity) : M_scope.

(** [not work_data] for the outcome of a lookup: [None] or an empty record. *)
Definition no_record (work_data : option work) : bool :=
  match work_data with
  | None => true
  | Some w => match w_items w with [] => true | _ => false end
  end.

(** ** [get_work_details] *)

(** The selection and index removal applied to the fetched full record. *)
Definition shape_full_record (work_data : work)
    (select_fields : option (list string)) : dict :=
  let work_dict := w_items work_data in
  let work_dict :=
    match w_abstract work_data with
    | Ok generated_abstract => Dict.set work_dict "abstract" generated_abstract
    | Raise _ => Dict.set work_dict "abstract" JNull
    end in
  let final_result :=
    match select_fields with
    | Some (f :: fs) => _select_fields work_dict (f :: fs)
    | _ => work_dict
    end in
  let should_remove_index :=
    Dict.mem final_result "abstract"
    && negb (is_none (dict_get_default final_result "abstract" JNull))
    && Dict.mem final_result "abstract_inverted_index"
    && (negb (fields_given select_fields)
        || negb (str_in "abstract_inverted_index"
                        (default [] select_fields))) in
  if should_remove_index
  then Dict.del final_result "abstract_inverted_index"
  else final_result.

Definition work_not_found (work_id : string) : dict :=
  [("error", JStr ("Work not found: " ++ work_id))].

Definition get_work_details_body (c : client) (work_id : string)
    (select_fields : option (list string)) : M dict :=
  let fetch_full_object :=
    negb (fields_given select_fields)
    || (fields_given select_fields
        && str_in "abstract" (default [] select_fields)) in
  (if fetch_full_object then
     work_data <~ request (CallGetItem None work_id)
                          (works_getitem c None work_id) ;;
     match work_data with
     | Some w =>
         if no_record work_data then mret (work_not_found work_id)
         else mret (shape_full_record w select_fields)
     | None => mret (work_not_found work_id)
     end
   else
     (* [list(set(select_fields) | {"id", "doi"})]: Python leaves the order
        of the list open; the fields are listed here in request order. *)
     let query_select :=
       remove_dups (default [] select_fields ++ ["id"; "doi"]) in
     work_data <~ request (CallGetItem (Some query_select) work_id)
                          (works_getitem c (Some query_select) work_id) ;;
     match work_data with
     | Some w =>
         if no_record work_data then mret (work_not_found work_id)
         else mret (w_items w)
     | None => mret (work_not_found work_id)
     end)%M.

Definition get_work_details (c : client) (work_id : string)
    (select_fields : option (list string)) : M dict :=
  m_try_except (get_work_details_body c work_id select_fields)
               (fun e => mret [("error", JStr (exn_str e))]).

(** ** [get_batch_work_details] *)

Definition MAX_IDS : nat := 50.

(** [api_select_fields] as built when [select_fields] is given. *)
Definition api_select_fields (select_fields : list string) : list string :=
  let abstract_requested := str_in "abstract" select_fields in
  let api :=
    List.filter (fun field => negb (String.eqb field "abstract"))
                select_fields in
  let api :=
    if abstract_requested && negb (str_in "abstract_inverted_index" api)
    then api ++ ["abstract_inverted_index"]
    else api in
  if negb (str_in "id" api) then "id" :: api else api.

(** The loop body for one record, once it is a dict.  [getitem] is the
    outcome of [work["abstract"]] when the delivered object has a
    subscript, [None] when it has none and the index is rebuilt locally.
    Every exception of the generation is caught here. *)
Definition batch_item (work_dict : dict) (getitem : option (result json))
    (select_fields : option (list string)) : dict :=
  let abstract_requested :=
    fields_given select_fields
    && str_in "abstract" (default [] select_fields) in
  let work_dict :=
    if abstract_requested || negb (fields_given select_fields) then
      if Dict.mem work_dict "abstract_inverted_index" then
        let generated :=
          match getitem with
          | Some outcome => outcome
          | None =>
              reconstruct_abstract
                (dict_get_default work_dict "abstract_inverted_index" JNull)
          end in
        match generated with
        | Ok generated_abstract =>
            Dict.set work_dict "abstract" generated_abstract
        | Raise _ => Dict.set work_dict "abstract" JNull
        end
      else Dict.set work_dict "abstract" JNull
    else work_dict in
  let result :=
    match select_fields with
    | Some (f :: fs) =>
        if abstract_requested
        then _select_fields work_dict
               (api_select_fields (f :: fs) ++ ["abstract"])
        else _select_fields work_dict (api_select_fields (f :: fs))
    | _ => work_dict
    end in
  let inverted_index_requested :=
    fields_given select_fields
    && str_in "abstract_inverted_index" (default [] select_fields) in
  if Dict.mem result "abstract_inverted_index"
     && negb inverted_index_requested
  then Dict.del result "abstract_inverted_index"
  else result.

(** [for work in results_list: ...].  The client's list holds one object
    per record, so the in-place updates of one record do not reach
    another. *)
Fixpoint batch_loop (results_list : list raw)
    (select_fields : option (list string)) : result (list dict) :=
  match results_list with
  | [] => Ok []
  | RMapping w :: rest =>
      processed <- batch_loop rest select_fields ;;
      Ok (batch_item (w_items w) (Some (w_abstract w)) select_fields
            :: processed)
  | RForeign o :: rest =>
      match f_to_dict o, f_items o with
      | Some converted, _ =>
          work_dict <- converted ;;
          processed <- batch_loop rest select_fields ;;
          Ok (batch_item (w_items work_dict) (f_getitem_abstract o)
                select_fields :: processed)
      | None, Some items =>
          work_dict <- items ;;
          processed <- batch_loop rest select_fields ;;
          Ok (batch_item work_dict (f_getitem_abstract o) select_fields
                :: processed)
      | None, None => batch_loop rest select_fields   (* skipped, logged *)
      end
  end.

Definition batch_query (work_ids : list string)
    (select_fields : option (list string)) : query :=
  let cleaned_ids := List.map strip_url_prefix work_ids in
  let id_filter :=
    [("ids", JObj [("openalex", JStr (String.concat "|" cleaned_ids))])] in
  mkQuery NoSearch id_filter []
    (match select_fields with
     | Some (f :: fs) => Some (api_select_fields (f :: fs))
     | _ => None
     end).

Definition get_batch_work_details_body (c : client) (work_ids : list string)
    (select_fields : option (list string)) : M dict :=
  (let q := batch_query work_ids select_fields in
   results_list <~ request (CallGet q) (works_get c q) ;;
   processed_results <~ lift (batch_loop results_list select_fields) ;;
   mret [("works", JList (List.map JObj processed_results))])%M.

Definition get_batch_work_details (c : client) (work_ids : list string)
    (select_fields : option (list string)) : M dict :=
  match work_ids with
  | [] => mret [("error", JStr "work_ids list cannot be empty.");
                ("works", JList [])]
  | _ =>
      if Nat.ltb MAX_IDS (length work_ids) then
        mret [("error", JStr ("Too many work_ids provided. Maximum is "
                              ++ pretty MAX_IDS ++ "."));
              ("works", JList [])]
      else
        m_try_except (get_batch_work_details_body c work_ids select_fields)
          (fun e => mret [("error", JStr (exn_str e)); ("works", JList [])])
  end.

(** ** [get_referenced_works] *)

(** [work_data.get("referenced_works", [])] on the outcome of a lookup. *)
Definition referenced_ids_of (work_data : option work) : result json :=
  match work_data with
  | Some w => Ok (dict_get_default (w_items w) "referenced_works" (JList []))
  | None =>
      Raise (builtin_exn AttributeError
               "'NoneType' object has no attribute 'get'")
  end.

Definition get_referenced_works (c : client) (work_id : string) : M dict :=
  m_try_except
    (let work_id := strip_url_prefix work_id in
     work_data <~ request (CallGetItem (Some ["referenced_works"]) work_id)
                          (works_getitem c (Some ["referenced_works"]) work_id) ;;
     referenced_ids <~ lift (referenced_ids_of work_data) ;;
     mret [("referenced_work_ids", referenced_ids)])%M
    (fun e => mret [("error", JStr (exn_str e));
                    ("referenced_work_ids", JList [])]).

(** ** [get_work_ngrams] *)

(** The handler of [get_work_ngrams]:
    [if hasattr(e, 'response') and e.response.status_code == 404].  When the
    attribute is there and is [None], reading [status_code] raises inside
    the handler. *)
Definition ngrams_handler (work_id : string) (e : exn) : M dict :=
  match exn_response e with
  | NoResponseAttr => mret [("error", JStr (exn_str e))]
  | ResponseNone =>
      mraise (builtin_exn AttributeError
                "'NoneType' object has no attribute 'status_code'")
  | ResponseStatus code =>
      if (code =? 404)%Z
      then mret [("error", JStr ("N-grams not found for work ID "
                                 ++ work_id ++ "."))]
      else mret [("error", JStr (exn_str e))]
  end.

(** [Works()[work_id].ngrams()], for the identifier already stripped. *)
Definition get_work_ngrams_body (c : client) (work_id : string) : M dict :=
  (work_data <~ request (CallGetItem None work_id)
                        (works_getitem c None work_id) ;;
   match work_data with
   | Some w => request (CallNgrams w) (work_ngrams c w)
   | None =>
       mraise (builtin_exn AttributeError
                 "'NoneType' object has no attribute 'ngrams'")
   end)%M.

Definition get_work_ngrams (c : client) (work_id : string) : M dict :=
  let work_id := strip_url_prefix work_id in
  m_try_except (get_work_ngrams_body c work_id) (ngrams_handler work_id).

(** ** [search_works] and [get_citing_works] *)

Definition is_stop_iteration (e : exn) : bool :=
  match exn_class_of e with StopIteration => true | _ => false end.

(** The block both listings share: [next(pager)], the metadata of the page
    with its fallback through [query._get_meta()], and the handler of
    [StopIteration] that synthesizes the metadata of an empty page. *)
Definition first_page (c : client) (q : query) (per_page : Z)
    (cursor : option string) : M (list raw * json) :=
  m_try_except
    (pg <~ request (CallNextPage q per_page cursor)
                   (works_next_page c q per_page cursor) ;;
     match page_meta pg with
     | Some meta => mret (page_items pg, meta)
     | None =>
         match works_get_meta c with
         | Some get_meta =>
             m_try_except
               (raw_meta_response <~ request (CallGetMeta q) (get_meta q) ;;
                metadata <~ lift (py_get raw_meta_response "meta" (JObj [])) ;;
                mret (page_items pg, metadata))
               (fun _ => mret (page_items pg, JObj []))
         | None => mret (page_items pg, JObj [])
         end
     end)%M
    (fun e =>
       if is_stop_iteration e then
         mret ([], JObj [("count", JNum 0); ("page", JNum 1);
                         ("per_page", JNum per_page);
                         ("next_cursor", JNull)])
       else mraise e).

(** The envelope of a page: the results and the three metadata fields. *)
Definition page_response (final_results : list dict) (metadata : json)
    (per_page : Z) : result dict :=
  count <- py_get metadata "count" JNull ;;
  pp <- py_get metadata "per_page" (JNum per_page) ;;
  next_cursor <- py_get metadata "next_cursor" JNull ;;
  Ok [("results", JList (List.map JObj final_results));
      ("meta", JObj [("count", count); ("per_page", pp);
                     ("next_cursor", next_cursor)])].

Definition search_query_of (search_field search_query : string)
  : result query :=
  if String.eqb search_field "default" then
    Ok (mkQuery (Search search_query) [] [] None)
  else if str_in search_field
            ["title"; "abstract"; "fulltext"; "title_and_abstract";
             "display_name"] then
    if String.eqb search_field "display_name"
    then Ok (mkQuery (SearchFilter "title" search_query) [] [] None)
    else Ok (mkQuery (SearchFilter search_field search_query) [] [] None)
  else Raise (builtin_exn ValueError
                ("Invalid search_field: " ++ search_field)).

(** [processed_filters], filled key by key from [filters]. *)
Definition processed_filters (filters : dict) : dict :=
  List.fold_left (fun acc kv => Dict.set acc (fst kv) (snd kv)) filters [].

Definition with_filter (q : query) (filters : option dict) : query :=
  match filters with
  | Some (kv :: rest) =>
      mkQuery (q_search q) (processed_filters (kv :: rest))
              (q_sort q) (q_select q)
  | _ => q
  end.

Definition with_sort (q : query) (sort : option (list (string * string)))
  : query :=
  match sort with
  | Some (kv :: rest) =>
      mkQuery (q_search q) (q_filter q) (kv :: rest) (q_select q)
  | _ => q
  end.

Definition with_select (q : query) (fields : list string) : query :=
  mkQuery (q_search q) (q_filter q) (q_sort q) (Some fields).

Definition search_works_body (c : client) (search_query : string)
    (filters : option dict) (search_field : string)
    (select_fields : option (list string))
    (sort : option (list (string * string))) (summarize_results : bool)
    (per_page : Z) (cursor : option string) : M dict :=
  (q <~ lift (search_query_of search_field search_query) ;;
   _ <~ request (CallCount q) (works_count c q) ;;
   let q := with_filter q filters in
   let q := with_sort q sort in
   let q :=
     if negb summarize_results && fields_given select_fields
     then with_select q (default [] select_fields)
     else q in
   pm <~ first_page c q per_page cursor ;;
   processed_page_results <~ lift (_process_results (fst pm) None) ;;
   final_results <~
     (if summarize_results
      then lift (mapM (fun item => _summarize_work item select_fields)
                      processed_page_results)
      else mret processed_page_results) ;;
   lift (page_response final_results (snd pm) per_page))%M.

Definition page_error (e : exn) : dict :=
  [("error", JStr (exn_str e)); ("results", JList []); ("meta", JObj [])].

Definition search_works (c : client) (search_query : string)
    (filters : option dict) (search_field : string)
    (select_fields : option (list string))
    (sort : option (list (string * string))) (summarize_results : bool)
    (per_page : Z) (cursor : option string) : M dict :=
  m_try_except
    (search_works_body c search_query filters search_field select_fields
       sort summarize_results per_page cursor)
    (fun e => mret (page_error e)).

Definition default_summary_fields : list string :=
  ["id"; "doi"; "title"; "publication_year"; "authorships";
   "cited_by_count"; "primary_location"; "open_access"; "abstract"].

Definition get_citing_works_body (c : client) (work_id : string)
    (select_fields : option (list string)) (summarize_results : bool)
    (per_page : Z) (cursor : option string) : M dict :=
  (let work_id := strip_url_prefix work_id in
   let q := mkQuery NoSearch [("cites", JStr work_id)] [] None in
   let q :=
     if negb summarize_results && fields_given select_fields
     then with_select q (default [] select_fields)
     else if negb summarize_results && negb (fields_given select_fields)
     then with_select q default_summary_fields
     else q in
   pm <~ first_page c q per_page cursor ;;
   processed_page_results <~
     lift (_process_results (fst pm)
             (if summarize_results then None else select_fields)) ;;
   final_results <~
     (if summarize_results
      then lift (mapM (fun item => _summarize_work item select_fields)
                      processed_page_results)
      else mret processed_page_results) ;;
   lift (page_response final_results (snd pm) per_page))%M.

Definition get_citing_works (c : client) (work_id : string)
    (select_fields : option (list string)) (summarize_results : bool)
    (per_page : Z) (cursor : option string) : M dict :=
  m_try_except
    (get_citing_works_body c work_id select_fields summarize_results
       per_page cursor)
    (fun e => mret (page_error e)).

(** ** Specification-side definitions *)

(** An inverted index as the data model describes it: words with their
    zero-based positions. *)
Definition inverted_index : Type := list (string * list nat).

(** The JSON value of an index. *)
Definition index_json (idx : inverted_index) : json :=
  JObj (List.map
          (fun wp => (fst wp,
                      JList (List.map (fun p => JNum (Z.of_nat p)) (snd wp))))
          idx).

(** Every position recorded in the index, entry after entry. *)
Definition index_positions (idx : inverted_index) : list nat :=
  List.concat (List.map snd idx).

(** The positions are covered injectively: no position is recorded twice. *)
Definition injective_index (idx : inverted_index) : Prop :=
  NoDup (index_positions idx).

(** The number of slots of the text: one more than the largest position. *)
Definition index_slots (idx : inverted_index) : nat :=
  list_max (List.map S (index_positions idx)).

(** Position [p] is recorded for [word]. *)
Definition recorded (idx : inverted_index) (word : string) (p : nat) : Prop :=
  exists ps, In (word, ps) idx /\ In p ps.

(** The token at slot [i] of a word list; beyond its end, the empty token. *)
Definition slot (words : list string) (i : nat) : string :=
  default EmptyString (words !! i).

(** The list after [words[p] = word], grown with empty tokens up to [p]. *)
Definition placed (words : list string) (p : nat) (word : string)
  : list string :=
  <[p := word]> (words ++ replicate (S p - length words) EmptyString).

(** The authorships of a record, when the field is a list. *)
Definition authorships_of (work_dict : dict) : list json :=
  match Dict.get work_dict "authorships" with
  | Some (JList l) => l
  | _ => []
  end.

(** The display name of one authorship, following the specification: the
    name of its author sub-record; an authorship without an author, or
    whose name is missing, null or empty, lacks a display name. *)
Definition display_name_of (authorship : json) : option json :=
  match authorship with
  | JObj a =>
      match Dict.get a "author" with
      | Some (JObj author) =>
          match Dict.get author "display_name" with
          | Some name => if truthy name then Some name else None
          | None => None
          end
      | _ => None
      end
  | _ => None
  end.

(** The author names of the specification: in authorship order, those
    lacking a name left out, at most six. *)
Definition author_names (authorships : list json) : list json :=
  take 6 (omap display_name_of authorships).

(** ** Well-formed records *)

Definition is_obj (v : json) : bool :=
  match v with JObj _ => true | _ => false end.

(** An authorship is a mapping whose author, when present, is a mapping. *)
Definition authorship_ok (authorship : json) : bool :=
  match authorship with
  | JObj a =>
      match Dict.get a "author" with
      | None => true
      | Some author => is_obj author
      end
  | _ => false
  end.

(** The nested fields the summarizer reads have the shape the dataset
    documents: [authorships] a list of authorships; [primary_location] a
    mapping whose [source] is null or a mapping; [best_oa_location] null or
    a mapping; [open_access] a mapping.  Each may be absent. *)
Definition well_formed_work (work_dict : dict) : bool :=
  match Dict.get work_dict "authorships" with
  | None => true
  | Some (JList l) => forallb authorship_ok l
  | Some _ => false
  end
  && match Dict.get work_dict "primary_location" with
     | None => true
     | Some (JObj pl) =>
         match Dict.get pl "source" with
         | None => true
         | Some source => negb (truthy source) || is_obj source
         end
     | Some _ => false
     end
  && match Dict.get work_dict "best_oa_location" with
     | None => true
     | Some best_oa => negb (truthy best_oa) || is_obj best_oa
     end
  && match Dict.get work_dict "open_access" with
     | None => true
     | Some oa => is_obj oa
     end.

(** ** Sample data *)

Module Sample.

(** The index of the text "the cat sat". *)
Definition cat_index : inverted_index :=
  [("the", [0]); ("cat", [1]); ("sat", [2])].

(** An index with a gap at position 1. *)
Definition gap_index : inverted_index := [("b", [2]); ("a", [0])].

Definition record_w1 : dict :=
  [("id", JStr "W1"); ("doi", JStr "D1"); ("title", JStr "T");
   ("year", JNum 2020)].

Definition authorship (name : string) : json :=
  JObj [("author", JObj [("display_name", JStr name)])].

(** Ten authorships, each with a display name. *)
Definition ten_authors : list json :=
  List.map authorship
    ["A1"; "A2"; "A3"; "A4"; "A5"; "A6"; "A7"; "A8"; "A9"; "A10"].

(** A record with ten authors and no venue. *)
Definition record_ten : dict :=
  [("id", JStr "W10"); ("title", JStr "Ten");
   ("authorships", JList ten_authors)].

(** A record carrying an index; its subscript yields [abstract]. *)
Definition indexed_work (abstract : result json) : work :=
  mkWork [("id", JStr "W2"); ("abstract_inverted_index", index_json cat_index)]
         abstract.

Definition no_response : exn := builtin_exn ClientError "not available".

(** A client that answers every request with the exception [e]. *)
Definition failing_client (e : exn) : client :=
  mkClient (fun _ _ => Raise e) (fun _ => Raise e) (fun _ => Raise e)
           (fun _ _ _ => Raise e) None (fun _ => Raise e).

(** A client whose lookups give [found] and whose listings give
    [records]. *)
Definition serving_client (found : option work) (records : list raw)
  : client :=
  mkClient (fun _ _ => Ok found) (fun _ => Ok records) (fun _ => Ok 0%Z)
           (fun _ _ _ => Ok (mkPage records (Some (JObj []))))
           None (fun _ => Ok []).

(** A connection failure of the HTTP library: its [response] attribute
    is there and is [None]. *)
Definition connection_error : exn :=
  mkExn ClientError "Connection aborted." ResponseNone.

Definition fifty_one_ids : list string := replicate 51 "W1".

End Sample.

(** ** Further specification-side definitions *)

(** The string contains the character [/]. *)
Fixpoint has_slash (s : string) : bool :=
  match s with
  | EmptyString => false
  | String c rest => Ascii.eqb c "/" || has_slash rest
  end.

(** The URL form of an identifier. *)
Definition openalex_url (work_id : string) : string :=
  "https://openalex.org/" ++ work_id.

(** The word that ends up at slot [i] when the entries of an index are
    written one after the other over a slot holding [current]: each entry
    that records [i] replaces what was there. *)
Fixpoint word_at (idx : inverted_index) (current : string) (i : nat)
  : string :=
  match idx with
  | [] => current
  | (word, ps) :: rest =>
      word_at rest (if existsb (Nat.eqb i) ps then word else current) i
  end.

(** The keys of a summary, in the order of [summary_data]. *)
Definition summary_keys : list string :=
  ["id"; "doi"; "title"; "publication_year"; "authors"; "cited_by_count";
   "venue"; "oa_url"; "abstract"].

(** The summary keys whose value is read from the record as it is. *)
Definition copied_keys : list string :=
  ["id"; "doi"; "title"; "publication_year"; "cited_by_count"; "abstract"].


(** The search fields [search_works] accepts besides "default". *)
Definition search_fields : list string :=
  ["title"; "abstract"; "fulltext"; "title_and_abstract"; "display_name"].

(** The abstract a full fetch attaches: the generated one, null when the
    generation failed. *)
Definition attached_abstract (w : work) : json :=
  match w_abstract w with
  | Ok generated => generated
  | Raise _ => JNull
  end.

Module Fixture.

(** A record with a venue, an open-access PDF and no primary identifier
    besides "id". *)
Definition record_full : dict :=
  [("id", JStr "W7"); ("title", JStr "Seven"); ("doi", JNull);
   ("primary_location",
    JObj [("source", JObj [("display_name", JStr "Journal")])]);
   ("best_oa_location", JObj [("pdf_url", JStr "https://x/p.pdf")]);
   ("open_access", JObj [("oa_url", JStr "https://x/landing")])].

(** A record whose primary location is null. *)
Definition record_null_location : dict :=
  [("id", JStr "W8"); ("primary_location", JNull)].

(** An index that records position 0 twice. *)
Definition clash_index : inverted_index := [("a", [0; 1]); ("b", [0])].

(** An object with [items()] and neither [to_dict()] nor a subscript. *)
Definition items_only (d : dict) : foreign :=
  mkForeign None (Some (Ok d)) None.

(** An object whose [to_dict()] raises. *)
Definition broken_conversion : foreign :=
  mkForeign (Some (Raise (builtin_exn TypeError "cannot convert"))) None None.

(** A client whose listing is exhausted: [next(pager)] raises
    [StopIteration]. *)
Definition exhausted_client : client :=
  mkClient (fun _ _ => Ok None) (fun _ => Ok []) (fun _ => Ok 0%Z)
           (fun _ _ _ => Raise (builtin_exn StopIteration EmptyString))
           None (fun _ => Ok []).

(** A client whose listings return one page made of [records]. *)
Definition paging_client (records : list raw) (meta : option json) : client :=
  mkClient (fun _ _ => Ok None) (fun _ => Ok records) (fun _ => Ok 1%Z)
           (fun _ _ _ => Ok (mkPage records meta))
           None (fun _ => Ok []).

(** An HTTP error carrying a response with the given status. *)
Definition http_error (status : Z) : exn :=
  mkExn ClientError "HTTP error" (ResponseStatus status).

(** The HTTP error the client raises for an identifier the dataset does
    not know. *)
Definition not_found_error : exn :=
  mkExn ClientError
    "404 Client Error: Not Found for url: https://api.openalex.org/works/W404"
    (ResponseStatus 404).

End Fixture.

(** * Properties *)

(** ** Dictionaries *)

Section DictFacts.

Implicit Types (d : dict) (k : string) (v : json).

Lemma str_in_In k (l : list string) : str_in k l = true <-> In k l.
Proof.
  unfold str_in. rewrite existsb_exists. split.
  - intros (x & Hx & Heq). apply String.eqb_eq in Heq. now subst.
  - intros H. exists k. split; [assumption | apply String.eqb_refl].
Qed.

Lemma get_Some_keys d k v : Dict.get d k = Some v -> In k (Dict.keys d).
Proof.
  induction d as [| [k' v'] d IH]; simpl; [discriminate |].
  destruct (String.eqb_spec k' k); [now left | right; auto].
Qed.

Lemma keys_get_Some d k : In k (Dict.keys d) -> exists v, Dict.get d k = Some v.
Proof.
  induction d as [| [k' v'] d IH]; simpl; [tauto |].
  intros [-> | H].
  - rewrite String.eqb_refl. eauto.
  - destruct (String.eqb k' k); eauto.
Qed.

Lemma mem_keys d k : Dict.mem d k = true <-> In k (Dict.keys d).
Proof.
  unfold Dict.mem. split.
  - destruct (Dict.get d k) eqn:E; [eauto using get_Some_keys | discriminate].
  - intros H. apply keys_get_Some in H as [v ->]. reflexivity.
Qed.

(** A comprehension keeps the value of every key that passes the test and
    drops the others. *)
Lemma get_comprehension (p : string -> bool) d k :
  Dict.get (Dict.comprehension p d) k = if p k then Dict.get d k else None.
Proof.
  unfold Dict.comprehension.
  induction d as [| [k' v'] d IH]; simpl.
  - now destruct (p k).
  - destruct (p k') eqn:Hp; simpl.
    + destruct (String.eqb_spec k' k) as [-> | Hne]; [now rewrite Hp | exact IH].
    + destruct (String.eqb_spec k' k) as [-> | Hne]; [| exact IH].
      rewrite IH, Hp. reflexivity.
Qed.

Lemma get_set_eq d k v : Dict.get (Dict.set d k v) k = Some v.
Proof.
  induction d as [| [k' v'] d IH]; simpl.
  - now rewrite String.eqb_refl.
  - destruct (String.eqb k' k) eqn:E; simpl.
    + now rewrite String.eqb_refl.
    + now rewrite E.
Qed.

Lemma get_set_ne d k k' v : k <> k' -> Dict.get (Dict.set d k v) k' = Dict.get d k'.
Proof.
  intros Hne. induction d as [| [k0 v0] d IH]; simpl.
  - destruct (String.eqb_spec k k'); [contradiction | reflexivity].
  - destruct (String.eqb_spec k0 k) as [-> | H0]; simpl.
    + destruct (String.eqb_spec k k'); [contradiction | reflexivity].
    + destruct (String.eqb k0 k'); [reflexivity | exact IH].
Qed.

Lemma get_del_eq d k : Dict.get (Dict.del d k) k = None.
Proof.
  unfold Dict.del.
  change (Dict.get (Dict.comprehension (fun k0 => negb (String.eqb k0 k)) d) k = None).
  rewrite get_comprehension, String.eqb_refl. reflexivity.
Qed.

Lemma get_del_ne d k k' : k <> k' -> Dict.get (Dict.del d k) k' = Dict.get d k'.
Proof.
  intros Hne. unfold Dict.del.
  change (Dict.get (Dict.comprehension (fun k0 => negb (String.eqb k0 k)) d) k'
          = Dict.get d k').
  rewrite get_comprehension.
  destruct (String.eqb_spec k' k); [congruence | reflexivity].
Qed.

(** The entries of a dictionary after [_select_fields]. *)
Lemma get_select_fields d (fs : list string) k :
  Dict.get (_select_fields d fs) k =
    if str_in k (fs ++ ["id"; "doi"]) then Dict.get d k else None.
Proof. unfold _select_fields. apply get_comprehension. Qed.

End DictFacts.

(** ** The field selector *)

(** C3.  For every record [r] and every list of requested fields [fs]
    (empty or not), the keys of [_select_fields r fs] are exactly the keys of
    [r] that are requested or are "id" or "doi"; each keeps its value in
    [r]; and the record W1 projected on "title" keeps "id", "doi" and
    "title". *)
Theorem select_fields_keeps_requested_and_ids :
  forall (r : dict) (fs : list string),
    (forall k, In k (Dict.keys (_select_fields r fs)) <->
               (In k fs \/ k = "id" \/ k = "doi") /\ In k (Dict.keys r))
    /\ (forall k, In k (Dict.keys (_select_fields r fs)) ->
                  Dict.get (_select_fields r fs) k = Dict.get r k)
    /\ _select_fields Sample.record_w1 ["title"] =
         [("id", JStr "W1"); ("doi", JStr "D1"); ("title", JStr "T")].
Proof.
  intros r fs.
  assert (Hsel : forall k, str_in k (fs ++ ["id"; "doi"]) = true <->
                           In k fs \/ k = "id" \/ k = "doi").
  { intros k. rewrite str_in_In, in_app_iff. simpl. intuition congruence. }
  split; [| split].
  - intros k. rewrite <- !mem_keys. unfold Dict.mem.
    rewrite get_select_fields, <- Hsel.
    destruct (str_in k (fs ++ ["id"; "doi"])), (Dict.get r k); intuition congruence.
  - intros k Hk. apply mem_keys in Hk. unfold Dict.mem in Hk.
    rewrite get_select_fields in *.
    destruct (str_in k (fs ++ ["id"; "doi"])); [reflexivity | discriminate].
  - reflexivity.
Qed.

(** ** Abstract reconstruction *)

Section Reconstruction.

Implicit Types (words : list string) (idx : inverted_index) (p i : nat).

Lemma place_word_nat words p word :
  place_word words (Z.of_nat p) word = Ok (placed words p word).
Proof.
  unfold place_word, placed.
  destruct (Z.leb_spec 0 (Z.of_nat p)); [| lia].
  now rewrite Nat2Z.id.
Qed.

Lemma length_placed words p word :
  length (placed words p word) = Nat.max (length words) (S p).
Proof.
  unfold placed. rewrite length_insert, length_app, length_replicate. lia.
Qed.

Lemma slot_placed_eq words p word : slot (placed words p word) p = word.
Proof.
  unfold slot, placed. rewrite list_lookup_insert_eq; [reflexivity |].
  rewrite length_app, length_replicate. lia.
Qed.

Lemma slot_placed_ne words p word i :
  i <> p -> slot (placed words p word) i = slot words i.
Proof.
  intros Hne. unfold slot, placed.
  rewrite list_lookup_insert_ne by congruence.
  destruct (Nat.lt_ge_cases i (length words)) as [Hlt | Hge].
  - now rewrite lookup_app_l.
  - rewrite lookup_app_r by exact Hge.
    rewrite (lookup_ge_None_2 words i) by exact Hge. simpl.
    destruct (replicate _ _ !! _) eqn:E; [| reflexivity].
    apply lookup_replicate in E as [-> _]. reflexivity.
Qed.

Lemma slot_lookup words i : i < length words -> words !! i = Some (slot words i).
Proof.
  intros H. unfold slot.
  destruct (words !! i) eqn:E; [reflexivity |].
  apply lookup_ge_None in E. lia.
Qed.

(** One entry of the index: every position of the entry holds its word,
    the other slots are untouched. *)
Lemma place_positions_nat (ps : list nat) word : forall words,
  exists words',
    place_positions words (List.map (fun p => JNum (Z.of_nat p)) ps) word
      = Ok words'
    /\ length words' = Nat.max (length words) (list_max (List.map S ps))
    /\ (forall i, In i ps -> slot words' i = word)
    /\ (forall i, ~ In i ps -> slot words' i = slot words i).
Proof.
  induction ps as [| p ps IH]; intros words.
  - exists words. simpl. repeat split; [lia | tauto].
  - destruct (IH (placed words p word)) as (words' & Hrun & Hlen & Hin & Hout).
    exists words'. cbn [List.map place_positions py_index rbind].
    rewrite place_word_nat. cbn [rbind]. split; [exact Hrun |].
    split; [| split].
    + rewrite Hlen, length_placed.
      change (list_max (S p :: List.map S ps))
        with (Nat.max (S p) (list_max (List.map S ps))).
      lia.
    + intros i [<- | Hi]; [| auto].
      destruct (in_dec Nat.eq_dec p ps) as [Hp | Hp]; [auto |].
      rewrite Hout by exact Hp. apply slot_placed_eq.
    + intros i Hi. cbn [In] in Hi.
      rewrite Hout by tauto. apply slot_placed_ne. intros ->. tauto.
Qed.

Lemma index_slots_cons word (ps : list nat) idx :
  index_slots ((word, ps) :: idx)
  = Nat.max (list_max (List.map S ps)) (index_slots idx).
Proof.
  unfold index_slots, index_positions. cbn [List.map List.concat snd].
  rewrite List.map_app. apply list_max_app.
Qed.

(** The whole index, when no position is recorded twice. *)
Lemma place_entries_injective idx : forall words,
  injective_index idx ->
  exists words',
    place_entries words
      (List.map (fun wp => (fst wp,
                            JList (List.map (fun p => JNum (Z.of_nat p))
                                            (snd wp)))) idx)
      = Ok words'
    /\ length words' = Nat.max (length words) (index_slots idx)
    /\ (forall word i, recorded idx word i -> slot words' i = word)
    /\ (forall i, ~ In i (index_positions idx) -> slot words' i = slot words i).
Proof.
  induction idx as [| [word ps] idx IH]; intros words Hinj.
  - exists words. simpl. repeat split.
    + unfold index_slots. simpl. lia.
    + intros w i (qs & [] & _).
  - unfold injective_index, index_positions in Hinj.
    cbn [List.map List.concat snd] in Hinj.
    apply NoDup_ListNoDup, List.NoDup_app_remove_l in Hinj as Hrest.
    destruct (place_positions_nat ps word words)
      as (words1 & Hrun1 & Hlen1 & Hin1 & Hout1).
    destruct (IH words1) as (words' & Hrun & Hlen & Hrec & Hout).
    { apply NoDup_ListNoDup. exact Hrest. }
    exists words'. cbn [List.map place_entries fst snd py_iter rbind].
    rewrite Hrun1. cbn [rbind]. split; [exact Hrun |].
    split; [| split].
    + rewrite Hlen, Hlen1, index_slots_cons. lia.
    + intros w i (qs & [Heq | Hq] & Hi).
      * injection Heq as <- <-.
        rewrite Hout; [auto |].
        intros Hi'. apply NoDup_ListNoDup in Hinj.
        apply NoDup_app in Hinj as (_ & Hdisj & _).
        apply (Hdisj i); apply list_elem_of_In; assumption.
      * apply Hrec. exists qs. split; assumption.
    + intros i Hi. unfold index_positions in Hi.
      cbn [List.map List.concat snd] in Hi. rewrite in_app_iff in Hi.
      rewrite Hout by (unfold index_positions; tauto).
      apply Hout1. tauto.
Qed.

Lemma recorded_positions idx i :
  In i (index_positions idx) <-> exists word, recorded idx word i.
Proof.
  unfold index_positions, recorded. rewrite in_concat. split.
  - intros (ps & Hps & Hi). apply in_map_iff in Hps as ([w qs] & <- & Hin).
    exists w, qs. split; assumption.
  - intros (w & ps & Hin & Hi). exists ps. split; [| assumption].
    apply in_map_iff. exists (w, ps). split; [reflexivity | assumption].
Qed.

Lemma recorded_lt_slots idx word i : recorded idx word i -> i < index_slots idx.
Proof.
  intros H. assert (Hin : In (S i) (List.map S (index_positions idx))).
  { apply in_map, recorded_positions. eauto. }
  unfold index_slots.
  pose proof (proj1 (list_max_le (List.map S (index_positions idx)) _)
                    (Nat.le_refl _)) as Hall.
  rewrite List.Forall_forall in Hall. specialize (Hall _ Hin). lia.
Qed.

End Reconstruction.

(** C2, as amended.  For every non-empty inverted index that records no
    position twice, the reconstruction returns the tokens of a word list
    joined by single spaces: the list has one slot per position up to the
    largest recorded one, every recorded position holds its word and every
    other slot holds the empty token.  The index of "the cat sat"
    reconstructs to that text. *)
Theorem reconstruct_abstract_places_words :
  forall idx : inverted_index,
    idx <> [] ->
    injective_index idx ->
    (exists words,
        reconstruct_abstract (index_json idx)
          = Ok (JStr (String.concat " " words))
        /\ length words = index_slots idx
        /\ (forall word p, recorded idx word p -> words !! p = Some word)
        /\ (forall i, i < length words ->
                      (forall word, ~ recorded idx word i) ->
                      words !! i = Some EmptyString))
    /\ reconstruct_abstract (index_json Sample.cat_index)
         = Ok (JStr "the cat sat").
Proof.
  intros idx Hne Hinj. split; [| reflexivity].
  destruct (place_entries_injective idx [] Hinj)
    as (words & Hrun & Hlen & Hrec & Hout).
  exists words. unfold reconstruct_abstract, index_json.
  destruct idx as [| wp idx]; [contradiction |].
  cbn [List.map truthy]. cbn [List.map] in Hrun. rewrite Hrun. cbn [rbind].
  simpl in Hlen. repeat split.
  - exact Hlen.
  - intros word p Hp. rewrite slot_lookup.
    + now rewrite (Hrec word p Hp).
    + rewrite Hlen. eapply recorded_lt_slots, Hp.
  - intros i Hi Hfree. rewrite slot_lookup by exact Hi.
    rewrite Hout.
    + unfold slot. now rewrite lookup_nil.
    + intros Hin. apply recorded_positions in Hin as [word Hw].
      exact (Hfree word Hw).
Qed.

(** The theorem at an index with a gap: slot 1 is an empty token. *)
Lemma reconstruct_abstract_gap_witness :
  Sample.gap_index <> []
  /\ injective_index Sample.gap_index
  /\ exists words,
       reconstruct_abstract (index_json Sample.gap_index)
         = Ok (JStr (String.concat " " words))
       /\ length words = 3
       /\ words !! 1 = Some EmptyString.
Proof.
  assert (Hne : Sample.gap_index <> []) by discriminate.
  assert (Hinj : injective_index Sample.gap_index).
  { apply NoDup_ListNoDup. repeat constructor; simpl; intuition lia. }
  split; [exact Hne | split; [exact Hinj |]].
  destruct (reconstruct_abstract_places_words Sample.gap_index Hne Hinj)
    as [(words & Hrun & Hlen & _ & Hgap) _].
  exists words. split; [exact Hrun | split; [exact Hlen |]].
  apply Hgap.
  - rewrite Hlen. vm_compute. lia.
  - intros word (ps & Hin & Hp). simpl in Hin.
    destruct Hin as [Heq | [Heq | []]]; injection Heq as <- <-;
      simpl in Hp; intuition lia.
Defined.

(** C2, the claim as stated fails at the empty index: it records no
    position twice, and its reconstruction is null, not a string. *)
Lemma reconstruct_abstract_empty_index_null :
  injective_index []
  /\ reconstruct_abstract (index_json []) = Ok JNull
  /\ ~ (exists text, reconstruct_abstract (index_json []) = Ok (JStr text)).
Proof.
  split; [constructor | split; [reflexivity |]].
  intros [text H]. discriminate H.
Qed.

(** ** The summarizer *)

Section Summarizer.

Implicit Types (r s : dict) (fs : option (list string)).

(** Whenever the name expression of the comprehension returns, it
    returns what the specification calls the display name, or a value
    that counts as none. *)
Lemma author_display_name_inv (a c : json) :
  author_display_name a = Ok c ->
  display_name_of a = if truthy c then Some c else None.
Proof.
  unfold author_display_name, display_name_of.
  destruct a as [| | | | |d]; simpl; try discriminate.
  unfold dict_get_default.
  destruct (Dict.get d "author") as [[| | | | |author] |]; simpl;
    try discriminate.
  - unfold dict_get_default.
    destruct (Dict.get author "display_name") as [name |]; simpl;
      intros [= <-]; reflexivity.
  - intros [= <-]. reflexivity.
Qed.

Lemma author_display_name_ok (a : json) :
  authorship_ok a = true -> exists c, author_display_name a = Ok c.
Proof.
  unfold authorship_ok, author_display_name.
  destruct a as [| | | | |d]; simpl; try discriminate.
  unfold dict_get_default.
  destruct (Dict.get d "author") as [[| | | | |author] |]; simpl;
    try discriminate; eauto.
Qed.

Lemma authors_comprehension_inv (l names : list json) :
  authors_comprehension l = Ok names -> names = omap display_name_of l.
Proof.
  revert names. induction l as [| a l IH]; intros names; simpl.
  - now intros [= <-].
  - destruct (author_display_name a) as [c | e] eqn:Ha; simpl;
      [| discriminate].
    rewrite (author_display_name_inv a c Ha).
    destruct (truthy c); simpl.
    + destruct (authors_comprehension l) as [rest | e]; simpl;
        [| discriminate].
      intros [= <-]. now rewrite (IH rest).
    + apply IH.
Qed.

Lemma authors_comprehension_ok (l : list json) :
  forallb authorship_ok l = true -> exists names, authors_comprehension l = Ok names.
Proof.
  induction l as [| a l IH]; simpl; [eauto |].
  intros [Ha Hl]%andb_prop.
  destruct (author_display_name_ok a Ha) as [c Hc].
  destruct (IH Hl) as [names Hnames].
  rewrite Hc, Hnames. simpl. destruct (truthy c); simpl; eauto.
Qed.

(** A string or a dict in place of the list either is empty or makes
    the comprehension raise on its first element. *)
Lemma authors_comprehension_strings {A} (f : A -> string) (l : list A)
    (names : list json) :
  authors_comprehension (List.map (fun x => JStr (f x)) l) = Ok names ->
  l = [].
Proof. destruct l; [reflexivity | discriminate]. Qed.

Lemma summary_authors_inv r (names : list json) :
  summary_authors r = Ok names -> names = author_names (authorships_of r).
Proof.
  unfold summary_authors, author_names, authorships_of, dict_get_default.
  destruct (Dict.get r "authorships") as [[| | |str|l|d] |]; simpl;
    try discriminate.
  - destruct (authors_comprehension _) as [ns | e] eqn:E; simpl;
      [| discriminate].
    apply (authors_comprehension_strings (fun c => String c EmptyString))
      in E as Hnil.
    rewrite Hnil in E. simpl in E. injection E as <-. now intros [= <-].
  - destruct (authors_comprehension l) as [ns | e] eqn:E; simpl;
      [| discriminate].
    intros [= <-]. now rewrite (authors_comprehension_inv l ns E).
  - unfold Dict.keys. rewrite List.map_map.
    destruct (authors_comprehension _) as [ns | e] eqn:E; simpl;
      [| discriminate].
    apply (authors_comprehension_strings fst) in E as Hnil.
    rewrite Hnil in E. simpl in E. injection E as <-. now intros [= <-].
  - now intros [= <-].
Qed.

Lemma summary_data_keys r (data : dict) :
  summary_data r = Ok data ->
  Dict.keys data =
    ["id"; "doi"; "title"; "publication_year"; "authors"; "cited_by_count";
     "venue"; "oa_url"; "abstract"].
Proof.
  unfold summary_data.
  destruct (summary_authors r); simpl; [| discriminate].
  destruct (summary_venue r); simpl; [| discriminate].
  destruct (summary_oa_url r); simpl; [| discriminate].
  now intros [= <-].
Qed.

(** Filtering a dictionary whose keys are distinct. *)
Lemma get_filter_nodup (f : string * json -> bool) (d : dict) (k : string) :
  List.NoDup (Dict.keys d) ->
  Dict.get (List.filter f d) k =
    match Dict.get d k with
    | Some v => if f (k, v) then Some v else None
    | None => None
    end.
Proof.
  induction d as [| [k' v'] d IH]; simpl; [reflexivity |].
  intros Hnd. inversion Hnd as [| ? ? Hnotin Hnd']; subst.
  specialize (IH Hnd').
  destruct (String.eqb_spec k' k) as [-> | Hne].
  - destruct (f (k, v')) eqn:Hf; simpl.
    + now rewrite String.eqb_refl.
    + rewrite IH. destruct (Dict.get d k) eqn:E; [| reflexivity].
      apply get_Some_keys in E. contradiction.
  - destruct (f (k', v')); simpl; [| exact IH].
    destruct (String.eqb_spec k' k); [contradiction | exact IH].
Qed.

Lemma summary_keys_nodup :
  List.NoDup ["id"; "doi"; "title"; "publication_year"; "authors";
              "cited_by_count"; "venue"; "oa_url"; "abstract"].
Proof. repeat constructor; simpl; intuition discriminate. Qed.

(** What a returned summary holds under a key. *)
Lemma summarize_get r fs s (k : string) :
  _summarize_work r fs = Ok s ->
  exists data,
    summary_data r = Ok data
    /\ Dict.get s k =
         match Dict.get data k with
         | Some v => if key_included fs k && negb (is_none v)
                     then Some v else None
         | None => None
         end.
Proof.
  unfold _summarize_work.
  destruct (summary_data r) as [data | e] eqn:E; simpl; [| discriminate].
  intros [= <-]. exists data. split; [reflexivity |].
  apply (get_filter_nodup
           (fun kv => key_included fs (fst kv) && negb (is_none (snd kv)))).
  rewrite (summary_data_keys r data E). apply summary_keys_nodup.
Qed.

Lemma summarize_entries_not_null r fs s (k : string) (v : json) :
  _summarize_work r fs = Ok s -> In (k, v) s -> v <> JNull.
Proof.
  unfold _summarize_work.
  destruct (summary_data r) as [data | e]; simpl; [| discriminate].
  intros [= <-] Hin. apply List.filter_In in Hin as [_ Hkeep].
  apply andb_prop in Hkeep as [_ Hv]. simpl in Hv.
  intros ->. discriminate Hv.
Qed.

Lemma get_In (d : dict) (k : string) (v : json) : Dict.get d k = Some v -> In (k, v) d.
Proof.
  induction d as [| [k' v'] d IH]; simpl; [discriminate |].
  destruct (String.eqb_spec k' k) as [-> | Hne].
  - intros [= ->]. now left.
  - intros H. right. auto.
Qed.

(** The nested reads of a well-formed record do not raise. *)
Lemma summary_venue_ok r :
  well_formed_work r = true -> exists venue, summary_venue r = Ok venue.
Proof.
  unfold well_formed_work, summary_venue, dict_get_default.
  intros [[[_ Hpl]%andb_prop _]%andb_prop _]%andb_prop.
  destruct (Dict.get r "primary_location") as [[| | | | |pl] |];
    try discriminate; simpl; [| eauto].
  unfold dict_get_default.
  destruct (Dict.get pl "source") as [source |]; simpl; [| eauto].
  destruct (truthy source) eqn:Ht; simpl in *; [| eauto].
  destruct source; try discriminate; simpl; eauto.
Qed.

Lemma summary_oa_url_ok r :
  well_formed_work r = true -> exists url, summary_oa_url r = Ok url.
Proof.
  unfold well_formed_work, summary_oa_url, dict_get_default.
  intros [[_ Hbest]%andb_prop Hoa]%andb_prop.
  assert (Hopen : exists oa,
             py_get match Dict.get r "open_access" with
                    | Some v => v
                    | None => JObj []
                    end "oa_url" JNull = Ok oa).
  { destruct (Dict.get r "open_access") as [[| | | | |oa] |];
      try discriminate; simpl; eauto. }
  destruct Hopen as [oa Hopen].
  destruct (Dict.get r "best_oa_location") as [best_oa |]; simpl.
  - destruct (truthy best_oa) eqn:Ht; simpl in *.
    + destruct best_oa; try discriminate; simpl.
      destruct (truthy (dict_get_default d "pdf_url" JNull)); [eauto |].
      rewrite Hopen. simpl. destruct (truthy oa); eauto.
    + rewrite Hopen. simpl. destruct (truthy oa); eauto.
  - rewrite Hopen. simpl. destruct (truthy oa); eauto.
Qed.

Lemma summary_authors_ok r :
  well_formed_work r = true -> exists names, summary_authors r = Ok names.
Proof.
  unfold well_formed_work, summary_authors, dict_get_default.
  intros [[[Hauth _]%andb_prop _]%andb_prop _]%andb_prop.
  destruct (Dict.get r "authorships") as [[| | | |l|] |];
    try discriminate; simpl; [| eauto].
  destruct (authors_comprehension_ok l Hauth) as [names ->]. simpl. eauto.
Qed.

(** The summarizer returns on every well-formed record. *)
Lemma summarize_total r fs :
  well_formed_work r = true -> exists s, _summarize_work r fs = Ok s.
Proof.
  intros Hwf. unfold _summarize_work, summary_data.
  destruct (summary_authors_ok r Hwf) as [names ->].
  destruct (summary_venue_ok r Hwf) as [venue ->].
  destruct (summary_oa_url_ok r Hwf) as [url ->].
  simpl. eauto.
Qed.

Lemma summary_venue_absent r :
  Dict.get r "primary_location" = None -> summary_venue r = Ok JNull.
Proof. intros H. unfold summary_venue, dict_get_default. now rewrite H. Qed.

Lemma length_author_names (l : list json) : length (author_names l) <= 6.
Proof. unfold author_names. rewrite length_take. lia. Qed.

(** When every authorship has a name, the names pair up with the
    authorships one to one. *)
Lemma omap_all_named (l : list json) :
  Forall (fun a => is_Some (display_name_of a)) l ->
  Forall2 (fun a name => display_name_of a = Some name) l
          (omap display_name_of l).
Proof.
  induction 1 as [| a l [name Ha] _ IH]; simpl; [constructor |].
  rewrite Ha. simpl. constructor; assumption.
Qed.

End Summarizer.

(** C4.  The summarizer returns on every well-formed record; whenever it
    returns and "authors" is among the summary keys kept, the value of
    "authors" is the list of display names in authorship order, the
    authorships lacking a name left out with nothing in their place, cut
    after six.  With ten authorships that all have a name, the list has
    exactly six names: those of the first six authorships, in order. *)
Theorem summarize_authors_in_order_capped :
  forall (r : dict) (fs : option (list string)),
    (well_formed_work r = true -> exists s, _summarize_work r fs = Ok s)
    /\ (forall s,
           _summarize_work r fs = Ok s ->
           key_included fs "authors" = true ->
           Dict.get s "authors"
             = Some (JList (author_names (authorships_of r))))
    /\ length (author_names (authorships_of r)) <= 6
    /\ (length (authorships_of r) = 10 ->
        Forall (fun a => is_Some (display_name_of a)) (authorships_of r) ->
        length (author_names (authorships_of r)) = 6
        /\ Forall2 (fun a name => display_name_of a = Some name)
                   (take 6 (authorships_of r))
                   (author_names (authorships_of r))).
Proof.
  intros r fs. split; [apply summarize_total |].
  split; [| split; [apply length_author_names |]].
  - intros s Hs Hkey.
    destruct (summarize_get r fs s "authors" Hs) as (data & Hdata & ->).
    unfold summary_data in Hdata.
    destruct (summary_authors r) as [names | e] eqn:Hnames; simpl in Hdata;
      [| discriminate].
    destruct (summary_venue r); simpl in Hdata; [| discriminate].
    destruct (summary_oa_url r); simpl in Hdata; [| discriminate].
    injection Hdata as <-. simpl. rewrite Hkey. simpl.
    now rewrite (summary_authors_inv r names Hnames).
  - intros Hlen Hall. apply omap_all_named in Hall as Hpairs.
    split.
    + unfold author_names. rewrite length_take.
      rewrite <- (Forall2_length _ _ _ Hpairs), Hlen. reflexivity.
    + unfold author_names. now apply Forall2_take.
Qed.

(** The theorem at a record with ten named authors: six names, A1 to A6. *)
Lemma summarize_ten_authors_witness :
  well_formed_work Sample.record_ten = true
  /\ exists s,
       _summarize_work Sample.record_ten None = Ok s
       /\ Dict.get s "authors"
            = Some (JList (List.map JStr ["A1"; "A2"; "A3"; "A4"; "A5"; "A6"])).
Proof.
  split; [reflexivity |].
  destruct (summarize_authors_in_order_capped Sample.record_ten None)
    as (Htotal & Hvalue & _).
  destruct (Htotal eq_refl) as [s Hs].
  exists s. split; [exact Hs |].
  rewrite (Hvalue s Hs eq_refl). reflexivity.
Defined.

(** C5.  Every entry of a returned summary has a value other than null,
    whatever the record and whether fields were requested or not; a record
    whose venue resolves to null has no "venue" key in its summary; and a
    well-formed record without a primary location does yield a summary,
    one without a "venue" key. *)
Theorem summary_has_no_null_value :
  forall (r : dict) (fs : option (list string)),
    (forall s,
        _summarize_work r fs = Ok s ->
        (forall k v, In (k, v) s -> v <> JNull)
        /\ (forall k, Dict.get s k <> Some JNull)
        /\ (summary_venue r = Ok JNull -> ~ In "venue" (Dict.keys s)))
    /\ (well_formed_work r = true ->
        Dict.get r "primary_location" = None ->
        exists s, _summarize_work r fs = Ok s
                  /\ ~ In "venue" (Dict.keys s)).
Proof.
  intros r fs.
  assert (Hvenue : forall s, _summarize_work r fs = Ok s ->
                             summary_venue r = Ok JNull ->
                             ~ In "venue" (Dict.keys s)).
  { intros s Hs Hnull Hin. apply keys_get_Some in Hin as [v Hv].
    destruct (summarize_get r fs s "venue" Hs) as (data & Hdata & Hget).
    unfold summary_data in Hdata. rewrite Hnull in Hdata.
    destruct (summary_authors r); simpl in Hdata; [| discriminate].
    destruct (summary_oa_url r); simpl in Hdata; [| discriminate].
    injection Hdata as <-. simpl in Hget.
    rewrite andb_false_r in Hget. congruence. }
  split.
  - intros s Hs. split; [| split].
    + intros k v. apply (summarize_entries_not_null r fs s k v Hs).
    + intros k Hk. apply get_In in Hk.
      now apply (summarize_entries_not_null r fs s k JNull Hs).
    + apply Hvenue, Hs.
  - intros Hwf Habsent. destruct (summarize_total r fs Hwf) as [s Hs].
    exists s. split; [exact Hs |].
    apply Hvenue; [exact Hs | now apply summary_venue_absent].
Qed.

(** The theorem at the record with ten authors, which has no venue. *)
Lemma summary_no_venue_witness :
  well_formed_work Sample.record_ten = true
  /\ Dict.get Sample.record_ten "primary_location" = None
  /\ exists s,
       _summarize_work Sample.record_ten None = Ok s
       /\ ~ In "venue" (Dict.keys s)
       /\ (forall k, Dict.get s k <> Some JNull).
Proof.
  split; [reflexivity | split; [reflexivity |]].
  destruct (summary_has_no_null_value Sample.record_ten None)
    as (Hreturned & Hyields).
  destruct (Hyields eq_refl eq_refl) as (s & Hs & Hno_venue).
  exists s. split; [exact Hs | split; [exact Hno_venue |]].
  apply (Hreturned s Hs).
Defined.

(** ** The request handlers *)

Section Handlers.

Implicit Types (c : client) (t : trace) (fs : option (list string)).

(** A handler body guarded by a handler clause that itself returns a
    mapping cannot raise. *)
Lemma guarded_returns {A} (body : M A) (on_error : exn -> A) t :
  exists a, snd (m_try_except body (fun e => mret (on_error e)) t) = Ok a.
Proof.
  unfold m_try_except, mret.
  destruct (body t) as [t' [a | e]]; simpl; eauto.
Qed.

(** On failure the guarded handler returns what its clause builds. *)
Lemma guarded_outcome {A} (body : M A) (on_error : exn -> A) t :
  snd (m_try_except body (fun e => mret (on_error e)) t) =
    match snd (body t) with
    | Ok a => Ok a
    | Raise e => Ok (on_error e)
    end.
Proof.
  unfold m_try_except, mret.
  destruct (body t) as [t' [a | e]]; reflexivity.
Qed.

Lemma search_works_returns c q filters field fs sort summarize per_page cursor t :
  exists d,
    snd (search_works c q filters field fs sort summarize per_page cursor t)
      = Ok d.
Proof. apply (guarded_returns _ page_error). Qed.

Lemma get_citing_works_returns c work_id fs summarize per_page cursor t :
  exists d,
    snd (get_citing_works c work_id fs summarize per_page cursor t) = Ok d.
Proof. apply (guarded_returns _ page_error). Qed.

Lemma get_work_details_returns c work_id fs t :
  exists d, snd (get_work_details c work_id fs t) = Ok d.
Proof.
  apply (guarded_returns _ (fun e => [("error", JStr (exn_str e))])).
Qed.

Lemma get_referenced_works_returns c work_id t :
  exists d, snd (get_referenced_works c work_id t) = Ok d.
Proof.
  apply (guarded_returns _
           (fun e => [("error", JStr (exn_str e));
                      ("referenced_work_ids", JList [])])).
Qed.

Lemma get_batch_work_details_returns c ids fs t :
  exists d, snd (get_batch_work_details c ids fs t) = Ok d.
Proof.
  unfold get_batch_work_details.
  destruct ids as [| id ids]; [simpl; eauto |].
  destruct (Nat.ltb MAX_IDS (length (id :: ids))); [simpl; eauto |].
  apply (guarded_returns _
           (fun e => [("error", JStr (exn_str e)); ("works", JList [])])).
Qed.

(** A failed listing reports the error with empty results and metadata. *)
Lemma search_works_failure c q filters field fs sort summarize per_page cursor t e :
  snd (search_works_body c q filters field fs sort summarize per_page
         cursor t) = Raise e ->
  snd (search_works c q filters field fs sort summarize per_page cursor t)
    = Ok [("error", JStr (exn_str e)); ("results", JList []);
          ("meta", JObj [])].
Proof.
  intros H. unfold search_works.
  rewrite (guarded_outcome _ page_error), H. reflexivity.
Qed.

Lemma get_citing_works_failure c work_id fs summarize per_page cursor t e :
  snd (get_citing_works_body c work_id fs summarize per_page cursor t)
    = Raise e ->
  snd (get_citing_works c work_id fs summarize per_page cursor t)
    = Ok [("error", JStr (exn_str e)); ("results", JList []);
          ("meta", JObj [])].
Proof.
  intros H. unfold get_citing_works.
  rewrite (guarded_outcome _ page_error), H. reflexivity.
Qed.

(** A lookup that raises is reported with the text of the exception: by
    [get_work_details] alone, by [get_referenced_works] next to an empty
    list of identifiers. *)
Lemma get_work_details_failure c work_id t e :
  works_getitem c None work_id = Raise e ->
  get_work_details c work_id None t
    = (t ++ [CallGetItem None work_id], Ok [("error", JStr (exn_str e))]).
Proof.
  intros H.
  unfold get_work_details, get_work_details_body, m_try_except, mbind,
    request, mret.
  cbn [fields_given negb orb]. now rewrite H.
Qed.

Lemma get_referenced_works_failure c work_id t e :
  works_getitem c (Some ["referenced_works"]) (strip_url_prefix work_id)
    = Raise e ->
  snd (get_referenced_works c work_id t)
    = Ok [("error", JStr (exn_str e)); ("referenced_work_ids", JList [])].
Proof.
  intros H.
  unfold get_referenced_works, m_try_except, mbind, request, lift, mret.
  now rewrite H.
Qed.

(** An unknown search field is reported without contacting the client. *)
Lemma search_works_invalid_field c q filters fs sort summarize per_page cursor t :
  search_works c q filters "publisher" fs sort summarize per_page cursor t
    = (t, Ok [("error", JStr "Invalid search_field: publisher");
              ("results", JList []); ("meta", JObj [])]).
Proof. reflexivity. Qed.

(** [get_work_ngrams] returns unless the exception it handles has a
    [response] attribute set to [None]. *)
Lemma get_work_ngrams_returns_without_none_response c work_id t :
  (forall e,
      snd (get_work_ngrams_body c (strip_url_prefix work_id) t) = Raise e ->
      exn_response e <> ResponseNone) ->
  exists d, snd (get_work_ngrams c work_id t) = Ok d.
Proof.
  unfold get_work_ngrams, m_try_except. intros Hresp.
  destruct (get_work_ngrams_body c (strip_url_prefix work_id) t)
    as [t' [d | e]]; simpl in *; [eauto |].
  specialize (Hresp e eq_refl). unfold ngrams_handler.
  destruct (exn_response e); [simpl; eauto | contradiction |].
  destruct (code =? 404)%Z; simpl; eauto.
Qed.

End Handlers.

(** C1.  The handler of [get_work_ngrams] reads [e.response.status_code]
    whenever the exception has a [response] attribute.  When the client
    fails with a connection error, whose [response] is [None], that read
    raises inside the handler and the exception leaves the operation: no
    mapping is returned. *)
Theorem get_work_ngrams_raises_on_connection_error :
  snd (get_work_ngrams (Sample.failing_client Sample.connection_error)
         "W1" [])
  = Raise (builtin_exn AttributeError
             "'NoneType' object has no attribute 'status_code'").
Proof. reflexivity. Qed.

(** ** Batch lookups *)

Section Batch.

Implicit Types (c : client) (t : trace) (fs : option (list string)).

(** The record built for one work never carries the index unless the
    caller listed it. *)
Lemma batch_item_strips_index (work_dict : dict)
    (getitem : option (result json)) fs :
  fields_given fs && str_in "abstract_inverted_index" (default [] fs) = false ->
  Dict.get (batch_item work_dict getitem fs) "abstract_inverted_index" = None.
Proof.
  intros Hreq. unfold batch_item. rewrite Hreq.
  cbv zeta. rewrite andb_true_r.
  match goal with
  | |- Dict.get (if Dict.mem ?res _ then _ else _) _ = _ =>
      generalize res
  end.
  intros shaped.
  destruct (Dict.mem shaped "abstract_inverted_index") eqn:Hmem.
  - apply get_del_eq.
  - unfold Dict.mem in Hmem.
    destruct (Dict.get shaped "abstract_inverted_index");
      [discriminate | reflexivity].
Qed.

(** Every record the loop appends is one built by [batch_item]. *)
Lemma batch_loop_Forall (P : dict -> Prop) fs :
  (forall work_dict getitem, P (batch_item work_dict getitem fs)) ->
  forall (results_list : list raw) (processed : list dict),
    batch_loop results_list fs = Ok processed -> Forall P processed.
Proof.
  intros HP results_list.
  induction results_list as [| [w | o] rest IH]; intros processed; simpl.
  - intros [= <-]. constructor.
  - destruct (batch_loop rest fs) as [ps | e]; simpl; [| discriminate].
    intros [= <-]. constructor; auto.
  - destruct (f_to_dict o) as [[converted | e] |]; simpl; try discriminate.
    + destruct (batch_loop rest fs) as [ps | e]; simpl; [| discriminate].
      intros [= <-]. constructor; auto.
    + destruct (f_items o) as [[items | e] |]; simpl; try discriminate;
        [| apply IH].
      destruct (batch_loop rest fs) as [ps | e]; simpl; [| discriminate].
      intros [= <-]. constructor; auto.
Qed.

(** What the guarded part of the handler returns and logs. *)
Lemma get_batch_guarded c (ids : list string) fs t :
  m_try_except (get_batch_work_details_body c ids fs)
    (fun e => mret [("error", JStr (exn_str e)); ("works", JList [])]) t
  = (t ++ [CallGet (batch_query ids fs)],
     match (results_list <- works_get c (batch_query ids fs) ;;
            batch_loop results_list fs) with
     | Ok processed => Ok [("works", JList (List.map JObj processed))]
     | Raise e => Ok [("error", JStr (exn_str e)); ("works", JList [])]
     end).
Proof.
  unfold m_try_except, get_batch_work_details_body, mbind, request, lift, mret.
  destruct (works_get c (batch_query ids fs)) as [rs | e]; simpl;
    [| reflexivity].
  destruct (batch_loop rs fs); reflexivity.
Qed.

End Batch.

(** C6.  With no identifier, and with more than fifty, the batch lookup
    returns an error with an empty "works" list and leaves the log of
    client calls as it was: the client is not contacted.  With one to
    fifty identifiers the request is sent, once, and the answer is that of
    the guarded lookup: the records found, or the exception raised by
    the lookup; neither validation error is produced. *)
Theorem get_batch_work_details_validates_count :
  forall (c : client) (fs : option (list string)) (t : trace),
    get_batch_work_details c [] fs t
      = (t, Ok [("error", JStr "work_ids list cannot be empty.");
                ("works", JList [])])
    /\ (forall ids,
           50 < length ids ->
           get_batch_work_details c ids fs t
             = (t, Ok [("error",
                        JStr "Too many work_ids provided. Maximum is 50.");
                       ("works", JList [])]))
    /\ (forall ids,
           1 <= length ids <= 50 ->
           get_batch_work_details c ids fs t
             = (t ++ [CallGet (batch_query ids fs)],
                match (results_list <- works_get c (batch_query ids fs) ;;
                       batch_loop results_list fs) with
                | Ok processed =>
                    Ok [("works", JList (List.map JObj processed))]
                | Raise e =>
                    Ok [("error", JStr (exn_str e)); ("works", JList [])]
                end)).
Proof.
  intros c fs t. split; [reflexivity | split].
  - intros ids Hlen. unfold get_batch_work_details.
    destruct ids as [| id ids]; [simpl in Hlen; lia |].
    destruct (Nat.ltb_spec MAX_IDS (length (id :: ids))) as [_ | Hle];
      [reflexivity | unfold MAX_IDS in Hle; lia].
  - intros ids [Hlo Hhi]. unfold get_batch_work_details.
    destruct ids as [| id ids]; [simpl in Hlo; lia |].
    destruct (Nat.ltb_spec MAX_IDS (length (id :: ids))) as [Hlt | _];
      [unfold MAX_IDS in Hlt; lia |].
    apply get_batch_guarded.
Qed.

(** The theorem at fifty-one identifiers and at a single one. *)
Lemma get_batch_work_details_count_witness :
  50 < length Sample.fifty_one_ids
  /\ 1 <= length ["W1"] <= 50
  /\ snd (get_batch_work_details (Sample.serving_client None [])
            Sample.fifty_one_ids None [])
       = Ok [("error", JStr "Too many work_ids provided. Maximum is 50.");
             ("works", JList [])]
  /\ get_batch_work_details (Sample.serving_client None []) ["W1"] None []
       = ([CallGet (batch_query ["W1"] None)], Ok [("works", JList [])]).
Proof.
  assert (Hmany : 50 < length Sample.fifty_one_ids) by (vm_compute; lia).
  assert (Hone : 1 <= length ["W1"] <= 50) by (simpl; lia).
  split; [exact Hmany | split; [exact Hone |]].
  destruct (get_batch_work_details_validates_count
              (Sample.serving_client None []) None [])
    as (_ & Htoo_many & Hsent).
  split.
  - now rewrite (Htoo_many Sample.fifty_one_ids Hmany).
  - now rewrite (Hsent ["W1"] Hone).
Defined.

(** C10.  Unless "abstract_inverted_index" is listed in [select_fields],
    no record returned by the batch lookup has that key, whether fields
    were given or not and whatever became of the abstract.  The single
    lookup differs: without a field list it keeps the index of a record
    whose abstract came out null or failed, and removes it when the
    abstract is not null. *)
Theorem get_batch_work_details_strips_index :
  forall (c : client) (fs : option (list string)) (t : trace),
    (forall ids resp works,
        fields_given fs && str_in "abstract_inverted_index" (default [] fs)
          = false ->
        snd (get_batch_work_details c ids fs t) = Ok resp ->
        Dict.get resp "works" = Some (JList works) ->
        forall w, In w works ->
                  exists d, w = JObj d
                            /\ Dict.get d "abstract_inverted_index" = None)
    /\ (forall work_id w index,
           works_getitem c None work_id = Ok (Some w) ->
           Dict.get (w_items w) "abstract_inverted_index" = Some index ->
           exists d,
             snd (get_work_details c work_id None t) = Ok d
             /\ Dict.get d "abstract_inverted_index"
                  = match w_abstract w with
                    | Ok JNull | Raise _ => Some index
                    | Ok _ => None
                    end).
Proof.
  intros c fs t. split.
  - intros ids resp works Hreq Hrun Hworks w Hw.
    assert (Hall : forall processed,
               Dict.get [("works", JList (List.map JObj processed))] "works"
                 = Some (JList works) ->
               Forall (fun d => Dict.get d "abstract_inverted_index" = None)
                      processed ->
               exists d, w = JObj d
                         /\ Dict.get d "abstract_inverted_index" = None).
    { intros processed [= <-] Hforall.
      apply in_map_iff in Hw as (d & <- & Hd).
      rewrite List.Forall_forall in Hforall. eauto. }
    unfold get_batch_work_details in Hrun.
    destruct ids as [| id ids].
    { injection Hrun as <-. injection Hworks as <-. destruct Hw. }
    destruct (Nat.ltb MAX_IDS (length (id :: ids))).
    { injection Hrun as <-. injection Hworks as <-. destruct Hw. }
    rewrite get_batch_guarded in Hrun. cbn [snd] in Hrun.
    destruct (works_get c (batch_query (id :: ids) fs)) as [rs | e];
      cbn [rbind] in Hrun.
    + destruct (batch_loop rs fs) as [processed | e] eqn:Hloop.
      * injection Hrun as <-. apply (Hall processed Hworks).
        apply (batch_loop_Forall _ fs
                 (fun d getitem => batch_item_strips_index d getitem fs Hreq)
                 rs processed Hloop).
      * injection Hrun as <-. injection Hworks as <-. destruct Hw.
    + injection Hrun as <-. injection Hworks as <-. destruct Hw.
  - intros work_id w index Hfound Hindex.
    unfold get_work_details, get_work_details_body, m_try_except, mbind,
      request, mret.
    cbn [fields_given negb orb]. rewrite Hfound. cbn [no_record].
    destruct (w_items w) as [| kv items] eqn:Hitems; [discriminate Hindex |].
    cbn [snd]. eexists. split; [reflexivity |].
    unfold shape_full_record. rewrite Hitems.
    cbn [fields_given negb orb andb default].
    rewrite andb_true_r.
    assert (Hkeep : forall v,
               Dict.get (Dict.set (kv :: items) "abstract" v)
                        "abstract_inverted_index" = Some index).
    { intros v. rewrite get_set_ne by discriminate. exact Hindex. }
    assert (Hmem : forall v,
               Dict.mem (Dict.set (kv :: items) "abstract" v)
                        "abstract_inverted_index" = true).
    { intros v. unfold Dict.mem. now rewrite Hkeep. }
    assert (Habs : forall v,
               Dict.mem (Dict.set (kv :: items) "abstract" v) "abstract" = true).
    { intros v. unfold Dict.mem. now rewrite get_set_eq. }
    destruct (w_abstract w) as [a | e].
    + rewrite Habs, Hmem. unfold dict_get_default. rewrite get_set_eq.
      destruct a; cbn [is_none negb andb]; solve [apply Hkeep | apply get_del_eq].
    + rewrite Habs, Hmem. unfold dict_get_default. rewrite get_set_eq.
      cbn [is_none negb andb]. apply Hkeep.
Qed.

(** The theorem at a record with an index, fetched both ways, once with an
    abstract that fails and once with one that is built. *)
Lemma get_batch_work_details_strips_index_witness :
  (exists d,
      snd (get_batch_work_details
             (Sample.serving_client None
                [RMapping (Sample.indexed_work (Raise Sample.no_response))])
             ["W2"] None [])
        = Ok [("works", JList [JObj d])]
      /\ Dict.get d "abstract_inverted_index" = None
      /\ Dict.get d "abstract" = Some JNull)
  /\ (exists d,
         snd (get_work_details
                (Sample.serving_client
                   (Some (Sample.indexed_work (Raise Sample.no_response))) [])
                "W2" None [])
           = Ok d
         /\ Dict.get d "abstract_inverted_index"
              = Some (index_json Sample.cat_index))
  /\ (exists d,
         snd (get_work_details
                (Sample.serving_client
                   (Some (Sample.indexed_work (Ok (JStr "the cat sat")))) [])
                "W2" None [])
           = Ok d
         /\ Dict.get d "abstract_inverted_index" = None).
Proof.
  split; [| split].
  - eexists. split; [reflexivity |].
    pose proof (proj1 (get_batch_work_details_strips_index
                         (Sample.serving_client None
                            [RMapping (Sample.indexed_work
                                         (Raise Sample.no_response))])
                         None [])
                  ["W2"] _ _ eq_refl eq_refl eq_refl _ (or_introl eq_refl))
      as (d & Heq & Hnone).
    injection Heq as <-. split; [exact Hnone | reflexivity].
  - exact (proj2 (get_batch_work_details_strips_index
                    (Sample.serving_client
                       (Some (Sample.indexed_work (Raise Sample.no_response)))
                       []) None [])
             "W2" _ _ eq_refl eq_refl).
  - exact (proj2 (get_batch_work_details_strips_index
                    (Sample.serving_client
                       (Some (Sample.indexed_work (Ok (JStr "the cat sat"))))
                       []) None [])
             "W2" _ _ eq_refl eq_refl).
Defined.

(** ** Single lookups *)

(** The guard of both fetch paths: when the lookup of an identifier
    returns [None] or an empty record, whichever fields are selected,
    [get_work_details] returns the mapping with the single key "error"
    and the message "Work not found: " followed by the identifier. *)
Theorem get_work_details_not_found :
  forall (c : client) (work_id : string) (fs : option (list string))
         (t : trace),
    (forall select, exists work_data,
        works_getitem c select work_id = Ok work_data
        /\ no_record work_data = true) ->
    snd (get_work_details c work_id fs t)
      = Ok [("error", JStr ("Work not found: " ++ work_id))].
Proof.
  intros c work_id fs t Hnone.
  unfold get_work_details, get_work_details_body, m_try_except, mbind,
    request, mret, work_not_found.
  match goal with
  | |- context [if ?b then _ else _] => destruct b
  end.
  - destruct (Hnone None) as (work_data & -> & Hno).
    destruct work_data as [w |]; [| reflexivity].
    now rewrite Hno.
  - match goal with
    | |- context [works_getitem c ?sel work_id] =>
        destruct (Hnone sel) as (work_data & -> & Hno)
    end.
    destruct work_data as [w |]; [| reflexivity].
    now rewrite Hno.
Qed.

(** The guard at a client whose lookups return [None], with and without a
    field list. *)
Lemma get_work_details_not_found_witness :
  (forall select, exists work_data,
      works_getitem (Sample.serving_client None []) select "W404"
        = Ok work_data
      /\ no_record work_data = true)
  /\ snd (get_work_details (Sample.serving_client None []) "W404" None [])
       = Ok [("error", JStr "Work not found: W404")]
  /\ snd (get_work_details (Sample.serving_client None []) "W404"
            (Some ["title"]) [])
       = Ok [("error", JStr "Work not found: W404")].
Proof.
  assert (Hnone : forall select, exists work_data,
             works_getitem (Sample.serving_client None []) select "W404"
               = Ok work_data
             /\ no_record work_data = true).
  { intros select. exists None. split; reflexivity. }
  split; [exact Hnone | split].
  - exact (get_work_details_not_found _ "W404" None [] Hnone).
  - exact (get_work_details_not_found _ "W404" (Some ["title"]) [] Hnone).
Defined.

(** A lookup that raises never reaches the guard: the handler reports the
    text of the exception, whatever it is, under the single key "error". *)
Lemma get_work_details_lookup_raises (c : client) (work_id : string)
    (fs : option (list string)) (t : trace) (e : exn) :
  (forall select, works_getitem c select work_id = Raise e) ->
  snd (get_work_details c work_id fs t) = Ok [("error", JStr (exn_str e))].
Proof.
  intros Hraise.
  unfold get_work_details, get_work_details_body, m_try_except, mbind,
    request, mret.
  match goal with
  | |- context [if ?b then _ else _] => destruct b
  end; rewrite Hraise; reflexivity.
Qed.

(** C7.  The client reports an identifier the dataset does not know by
    raising an HTTP error, and then the guard for a missing record is not
    reached: with or without a field list, [get_work_details] answers with
    the text of that error under "error", not with "Work not found: "
    followed by the identifier. *)
Theorem get_work_details_raised_not_found :
  snd (get_work_details (Sample.failing_client Fixture.not_found_error)
         "W404" None [])
  = Ok [("error",
         JStr "404 Client Error: Not Found for url: https://api.openalex.org/works/W404")]
  /\ snd (get_work_details (Sample.failing_client Fixture.not_found_error)
            "W404" (Some ["title"]) [])
     = Ok [("error",
            JStr "404 Client Error: Not Found for url: https://api.openalex.org/works/W404")]
  /\ snd (get_work_details (Sample.failing_client Fixture.not_found_error)
            "W404" None [])
     <> Ok [("error", JStr "Work not found: W404")].
Proof. repeat split. discriminate. Qed.

Section FullRecord.

Implicit Types (w : work) (k : string).



End FullRecord.




(** ** Outgoing citations *)

Section ReferencedWorks.

Implicit Types (c : client) (t : trace).

(** The default of the [get] covers the absent field: the list is
    empty. *)
Lemma get_referenced_works_absent c work_id t w :
  works_getitem c (Some ["referenced_works"]) (strip_url_prefix work_id)
    = Ok (Some w) ->
  Dict.get (w_items w) "referenced_works" = None ->
  snd (get_referenced_works c work_id t)
    = Ok [("referenced_work_ids", JList [])].
Proof.
  intros Hfound Habsent.
  unfold get_referenced_works, m_try_except, mbind, request, lift, mret.
  rewrite Hfound. simpl. unfold dict_get_default. now rewrite Habsent.
Qed.

(** A field that is present is passed on as it is. *)
Lemma get_referenced_works_present c work_id t w v :
  works_getitem c (Some ["referenced_works"]) (strip_url_prefix work_id)
    = Ok (Some w) ->
  Dict.get (w_items w) "referenced_works" = Some v ->
  snd (get_referenced_works c work_id t)
    = Ok [("referenced_work_ids", v)].
Proof.
  intros Hfound Hpresent.
  unfold get_referenced_works, m_try_except, mbind, request, lift, mret.
  rewrite Hfound. simpl. unfold dict_get_default. now rewrite Hpresent.
Qed.

(** A URL and the bare identifier are the same request. *)
Lemma get_referenced_works_url c t :
  get_referenced_works c "https://openalex.org/W123" t
    = get_referenced_works c "W123" t.
Proof. reflexivity. Qed.

End ReferencedWorks.

(** C9.  A successful call whose record has "referenced_works" set to null
    returns null under "referenced_work_ids": the default of the [get]
    applies to an absent field only, so the value is not always a list. *)
Theorem get_referenced_works_null_field :
  snd (get_referenced_works
         (Sample.serving_client
            (Some (plain [("referenced_works", JNull)])) [])
         "W1" [])
  = Ok [("referenced_work_ids", JNull)].
Proof. reflexivity. Qed.

(** * Further properties *)

(** ** Identifiers and URLs *)

Section Identifiers.

Implicit Types (s w : string).

Lemma split_slash_nonempty s : split_slash s <> [].
Proof.
  destruct s as [| c rest]; simpl; [discriminate |].
  destruct (Ascii.eqb c "/"); [discriminate |].
  destruct (split_slash rest); discriminate.
Qed.

(** Splitting at a slash splits the list of segments. *)
Lemma split_slash_app s w :
  split_slash (s ++ String "/" w)%string = split_slash s ++ split_slash w.
Proof.
  induction s as [| c rest IH]; simpl; [reflexivity |].
  destruct (Ascii.eqb c "/"); [now rewrite IH |].
  rewrite IH. destruct (split_slash rest) eqn:E; [| reflexivity].
  now apply split_slash_nonempty in E.
Qed.

Lemma split_slash_whole w : has_slash w = false -> split_slash w = [w].
Proof.
  induction w as [| c rest IH]; simpl; [reflexivity |].
  intros [Hc Hrest]%orb_false_elim. rewrite Hc, (IH Hrest). reflexivity.
Qed.

(** No segment contains a slash. *)
Lemma split_slash_segments s :
  List.Forall (fun seg => has_slash seg = false) (split_slash s).
Proof.
  induction s as [| c rest IH]; simpl.
  - repeat constructor.
  - destruct (Ascii.eqb c "/") eqn:Hc; [constructor; [reflexivity | exact IH] |].
    destruct (split_slash rest) as [| seg segs]; [repeat constructor; simpl; now rewrite Hc |].
    inversion IH; subst. constructor; [simpl; now rewrite Hc | assumption].
Qed.

Lemma last_segment_no_slash s :
  has_slash (List.last (split_slash s) EmptyString) = false.
Proof.
  pose proof (split_slash_segments s) as Hall.
  pose proof (split_slash_nonempty s) as Hne.
  induction (split_slash s) as [| seg segs IH]; [contradiction |].
  inversion Hall; subst. destruct segs as [| seg' segs']; [assumption |].
  apply IH; [assumption | discriminate].
Qed.

Lemma prefix_app (p s : string) :
  String.prefix p s = true -> exists r, s = (p ++ r)%string.
Proof.
  revert s. induction p as [| a p IH]; intros s.
  - intros _. exists s. reflexivity.
  - destruct s as [| b s]; simpl; [discriminate |].
    destruct (ascii_dec a b) as [<- |]; [| discriminate].
    intros H. destruct (IH s H) as [r ->]. exists r. reflexivity.
Qed.

(** Only a string with a slash starts with the URL prefix. *)
Lemma url_prefix_has_slash s :
  String.prefix "https://openalex.org/" s = true -> has_slash s = true.
Proof. intros H. destruct (prefix_app _ _ H) as [r ->]. reflexivity. Qed.

Lemma strip_bare w : has_slash w = false -> strip_url_prefix w = w.
Proof.
  intros Hw. unfold strip_url_prefix.
  destruct (String.prefix "https://openalex.org/" w) eqn:Hp; [| reflexivity].
  apply url_prefix_has_slash in Hp. congruence.
Qed.

Lemma strip_url w : has_slash w = false -> strip_url_prefix (openalex_url w) = w.
Proof.
  intros Hw. unfold strip_url_prefix, openalex_url.
  replace (String.prefix "https://openalex.org/"
             ("https://openalex.org/" ++ w)%string)
    with true by (simpl; repeat (destruct (ascii_dec _ _); [| congruence]);
                  destruct w; reflexivity).
  change ("https://openalex.org/" ++ w)%string
    with ("https://openalex.org" ++ String "/" w)%string.
  rewrite split_slash_app, (split_slash_whole w Hw).
  now rewrite List.last_last.
Qed.

End Identifiers.

(** X1.  An identifier without a slash and its URL form are the same
    request: the outgoing and incoming citation listings, the n-gram lookup
    and the batch lookup return the same result and make the same calls
    for both. *)
Theorem url_and_bare_identifier_agree :
  forall (c : client) (w : string),
    has_slash w = false ->
    (forall t, get_referenced_works c (openalex_url w) t
               = get_referenced_works c w t)
    /\ (forall fs summarize per_page cursor t,
           get_citing_works c (openalex_url w) fs summarize per_page cursor t
           = get_citing_works c w fs summarize per_page cursor t)
    /\ (forall t, get_work_ngrams c (openalex_url w) t = get_work_ngrams c w t)
    /\ (forall before after fs t,
           get_batch_work_details c (before ++ openalex_url w :: after) fs t
           = get_batch_work_details c (before ++ w :: after) fs t).
Proof.
  intros c w Hw.
  pose proof (strip_url w Hw) as Hurl. pose proof (strip_bare w Hw) as Hbare.
  repeat split.
  - intros t. unfold get_referenced_works. cbv zeta.
    now rewrite Hurl, Hbare.
  - intros fs summarize per_page cursor t.
    unfold get_citing_works, get_citing_works_body. cbv zeta.
    now rewrite Hurl, Hbare.
  - intros t. unfold get_work_ngrams. cbv zeta. now rewrite Hurl, Hbare.
  - intros before after fs t.
    assert (Hq : batch_query (before ++ openalex_url w :: after) fs
                 = batch_query (before ++ w :: after) fs).
    { unfold batch_query. rewrite !List.map_app. cbn [List.map].
      now rewrite Hurl, Hbare. }
    unfold get_batch_work_details, get_batch_work_details_body.
    rewrite Hq, !length_app. cbn [length].
    destruct before; reflexivity.
Qed.

(** The theorem at the identifier W123. *)
Lemma url_and_bare_identifier_witness :
  has_slash "W123" = false
  /\ get_work_ngrams (Sample.serving_client None [])
       "https://openalex.org/W123" []
     = get_work_ngrams (Sample.serving_client None []) "W123" [].
Proof.
  split; [reflexivity |].
  destruct (url_and_bare_identifier_agree (Sample.serving_client None [])
              "W123" eq_refl) as (_ & _ & Hngrams & _).
  exact (Hngrams []).
Defined.

(** X2.  Stripping the URL prefix twice is stripping it once, and what is
    left of a string that had the prefix contains no slash. *)
Theorem strip_url_prefix_idempotent :
  forall s : string,
    strip_url_prefix (strip_url_prefix s) = strip_url_prefix s
    /\ (String.prefix "https://openalex.org/" s = true ->
        has_slash (strip_url_prefix s) = false).
Proof.
  intros s.
  assert (Hstripped : String.prefix "https://openalex.org/" s = true ->
                      has_slash (strip_url_prefix s) = false).
  { intros Hp. unfold strip_url_prefix. rewrite Hp.
    apply last_segment_no_slash. }
  split; [| exact Hstripped].
  destruct (String.prefix "https://openalex.org/" s) eqn:Hp.
  - apply strip_bare, Hstripped. reflexivity.
  - unfold strip_url_prefix at 2 3. rewrite Hp.
    unfold strip_url_prefix. now rewrite Hp.
Qed.

(** The theorem at a URL with a trailing slash: nothing is left of it. *)
Lemma strip_url_prefix_witness :
  String.prefix "https://openalex.org/" "https://openalex.org/W1/" = true
  /\ has_slash (strip_url_prefix "https://openalex.org/W1/") = false
  /\ strip_url_prefix "https://openalex.org/W1/" = EmptyString.
Proof.
  split; [reflexivity |].
  split; [| reflexivity].
  exact (proj2 (strip_url_prefix_idempotent "https://openalex.org/W1/")
               eq_refl).
Defined.

(** ** More on the field selector *)

Section Selection.

Implicit Types (r : dict) (fs : list string).

Lemma filter_idempotent {A} (f : A -> bool) (l : list A) :
  List.filter f (List.filter f l) = List.filter f l.
Proof.
  induction l as [| x l IH]; simpl; [reflexivity |].
  destruct (f x) eqn:E; simpl; [rewrite E, IH |]; auto.
Qed.

Lemma filter_commute {A} (f g : A -> bool) (l : list A) :
  List.filter f (List.filter g l) = List.filter g (List.filter f l).
Proof.
  induction l as [| x l IH]; simpl; [reflexivity |].
  destruct (g x) eqn:Eg, (f x) eqn:Ef; simpl; rewrite ?Eg, ?Ef, IH; reflexivity.
Qed.

Lemma filter_sublist {A} (f : A -> bool) (l : list A) :
  sublist (List.filter f l) l.
Proof.
  induction l as [| x l IH]; simpl; [constructor |].
  destruct (f x); now constructor.
Qed.

Lemma filter_all {A} (f : A -> bool) (l : list A) :
  (forall x, In x l -> f x = true) -> List.filter f l = l.
Proof.
  induction l as [| x l IH]; simpl; [reflexivity |].
  intros H. rewrite (H x (or_introl eq_refl)), IH; auto.
Qed.

End Selection.

(** X3.  The field selector only removes entries: its result is the record
    with some entries left out, in the record's order.  Selecting twice
    with the same fields changes nothing more, two selections commute, and
    a selection that names every key of the record returns the record. *)
Theorem select_fields_only_removes :
  forall (r : dict) (fs gs : list string),
    sublist (_select_fields r fs) r
    /\ _select_fields (_select_fields r fs) fs = _select_fields r fs
    /\ _select_fields (_select_fields r fs) gs
       = _select_fields (_select_fields r gs) fs
    /\ ((forall k, In k (Dict.keys r) -> In k fs \/ k = "id" \/ k = "doi") ->
        _select_fields r fs = r).
Proof.
  intros r fs gs. unfold _select_fields, Dict.comprehension.
  split; [apply filter_sublist |].
  split; [apply filter_idempotent |].
  split; [apply filter_commute |].
  intros Hall. apply filter_all. intros [k v] Hin. simpl.
  apply str_in_In, in_app_iff. simpl.
  destruct (Hall k) as [H | [H | H]]; auto.
  apply in_map_iff. exists (k, v). split; [reflexivity | assumption].
Qed.

(** The theorem at the record W1 with all four of its keys requested. *)
Lemma select_fields_only_removes_witness :
  (forall k, In k (Dict.keys Sample.record_w1) ->
             In k ["title"; "year"] \/ k = "id" \/ k = "doi")
  /\ _select_fields Sample.record_w1 ["title"; "year"] = Sample.record_w1.
Proof.
  assert (Hall : forall k, In k (Dict.keys Sample.record_w1) ->
                           In k ["title"; "year"] \/ k = "id" \/ k = "doi").
  { intros k Hk. simpl in Hk. simpl. intuition. }
  split; [exact Hall |].
  exact (proj2 (proj2 (proj2 (select_fields_only_removes
                                Sample.record_w1 ["title"; "year"] []))) Hall).
Defined.

(** ** The normalizer *)

Section Normalizer.

Implicit Types (fs : option (list string)) (w : work).

(** Every record the normalizer returns is built by [process_item]. *)
Lemma process_results_Forall (P : dict -> Prop) fs :
  (forall item, P (process_item item fs)) ->
  forall (results : list raw) (processed : list dict),
    _process_results results fs = Ok processed -> Forall P processed.
Proof.
  intros HP results.
  induction results as [| [w | o] rest IH]; intros processed; simpl.
  - intros [= <-]. constructor.
  - destruct (_process_results rest fs) as [ps | e]; simpl; [| discriminate].
    intros [= <-]. constructor; auto.
  - destruct (f_to_dict o) as [[item | e] |]; simpl; try discriminate;
      [| apply IH].
    destruct (_process_results rest fs) as [ps | e]; simpl; [| discriminate].
    intros [= <-]. constructor; auto.
Qed.

Lemma process_results_length fs (results : list raw) :
  forall processed,
    _process_results results fs = Ok processed ->
    length processed <= length results.
Proof.
  induction results as [| [w | o] rest IH]; intros processed; simpl.
  - intros [= <-]. simpl. lia.
  - destruct (_process_results rest fs) as [ps | e]; simpl; [| discriminate].
    intros [= <-]. simpl. specialize (IH ps eq_refl). lia.
  - destruct (f_to_dict o) as [[item | e] |]; simpl; try discriminate.
    + destruct (_process_results rest fs) as [ps | e]; simpl; [| discriminate].
      intros [= <-]. simpl. specialize (IH ps eq_refl). lia.
    + intros H. specialize (IH processed H). lia.
Qed.

(** A delivered mapping is never left out. *)
Lemma process_results_In fs w (results : list raw) :
  forall processed,
    _process_results results fs = Ok processed ->
    In (RMapping w) results -> In (process_item w fs) processed.
Proof.
  induction results as [| [w' | o] rest IH]; intros processed; simpl.
  - intros _ [].
  - destruct (_process_results rest fs) as [ps | e]; simpl; [| discriminate].
    intros [= <-] [[= ->] | Hin]; [now left | right; auto].
  - destruct (f_to_dict o) as [[item | e] |]; simpl; try discriminate.
    + destruct (_process_results rest fs) as [ps | e]; simpl; [| discriminate].
      intros [= <-] [[=] | Hin]. right; auto.
    + intros H [[=] | Hin]. auto.
Qed.

(** With no field list the normalizer touches the abstract only. *)
Lemma process_item_other_keys w (k : string) :
  k <> "abstract" ->
  Dict.get (process_item w None) k = Dict.get (w_items w) k.
Proof.
  intros Hk. unfold process_item.
  destruct (negb (is_none _)).
  - now rewrite get_set_ne by congruence.
  - destruct (negb (Dict.mem _ _)); [| reflexivity].
    now rewrite get_set_ne by congruence.
Qed.

Lemma process_item_abstract w :
  Dict.get (process_item w None) "abstract"
  = Some (if is_none (attached_abstract w)
          then dict_get_default (w_items w) "abstract" JNull
          else attached_abstract w).
Proof.
  unfold process_item, attached_abstract.
  destruct (is_none _) eqn:Hnone; simpl.
  - unfold Dict.mem, dict_get_default.
    destruct (Dict.get (w_items w) "abstract") eqn:Hget; simpl.
    + exact Hget.
    + apply get_set_eq.
  - apply get_set_eq.
Qed.

End Normalizer.

(** X4.  With no field list, whenever the normalizer returns, it returns at
    most one record per delivered item and every record has an "abstract"
    key.  Its value is the generated abstract when that is not null,
    otherwise the value the record already had, or null; every other
    field of the record, the inverted index included, is returned as
    delivered. *)
Theorem process_results_attaches_abstract :
  forall (results : list raw) (processed : list dict),
    _process_results results None = Ok processed ->
    length processed <= length results
    /\ Forall (fun d => Dict.mem d "abstract" = true) processed
    /\ (forall w,
           In (RMapping w) results ->
           In (process_item w None) processed
           /\ Dict.get (process_item w None) "abstract"
              = Some (if is_none (attached_abstract w)
                      then dict_get_default (w_items w) "abstract" JNull
                      else attached_abstract w)
           /\ (forall k, k <> "abstract" ->
                         Dict.get (process_item w None) k
                         = Dict.get (w_items w) k)).
Proof.
  intros results processed Hrun.
  split; [eapply process_results_length, Hrun |].
  split.
  - apply (process_results_Forall _ None) with (results := results);
      [| exact Hrun].
    intros item. unfold Dict.mem. now rewrite process_item_abstract.
  - intros w Hin. split; [eapply process_results_In; eassumption |].
    split; [apply process_item_abstract | apply process_item_other_keys].
Qed.

(** The theorem at a page with one indexed record whose abstract cannot be
    generated and one object that cannot be converted. *)
Lemma process_results_attaches_abstract_witness :
  exists processed,
    _process_results
      [RMapping (Sample.indexed_work (Raise Sample.no_response));
       RForeign (Fixture.items_only Sample.record_w1)] None
    = Ok processed
    /\ length processed <= 2
    /\ Forall (fun d => Dict.mem d "abstract" = true) processed.
Proof.
  eexists. split; [reflexivity |].
  destruct (process_results_attaches_abstract _ _
              (eq_refl : _process_results
                           [RMapping (Sample.indexed_work
                                        (Raise Sample.no_response));
                            RForeign (Fixture.items_only Sample.record_w1)]
                           None = Ok _))
    as (Hlen & Hall & _).
  split; [exact Hlen | exact Hall].
Defined.

(** X5.  With a non-empty field list, every key of every record the
    normalizer returns is a requested field, "id" or "doi". *)
Theorem process_results_projects :
  forall (results : list raw) (f : string) (fs : list string)
         (processed : list dict),
    _process_results results (Some (f :: fs)) = Ok processed ->
    Forall (fun d => forall k, In k (Dict.keys d) ->
                               In k (f :: fs) \/ k = "id" \/ k = "doi")
           processed.
Proof.
  intros results f fs processed Hrun.
  apply (process_results_Forall _ (Some (f :: fs))) with (results := results);
    [| exact Hrun].
  intros item k Hk. apply mem_keys in Hk. unfold Dict.mem in Hk.
  unfold process_item in Hk. rewrite get_select_fields in Hk.
  destruct (str_in k ((f :: fs) ++ ["id"; "doi"])) eqn:Hsel;
    [| discriminate].
  apply str_in_In, in_app_iff in Hsel. simpl in Hsel. simpl. intuition.
Qed.

(** The theorem at the record W1 projected on "title". *)
Lemma process_results_projects_witness :
  exists processed,
    _process_results [RMapping (plain Sample.record_w1)] (Some ["title"])
    = Ok processed
    /\ Forall (fun d => forall k, In k (Dict.keys d) ->
                                  In k ["title"] \/ k = "id" \/ k = "doi")
              processed.
Proof.
  eexists. split; [reflexivity |].
  exact (process_results_projects [RMapping (plain Sample.record_w1)]
           "title" [] _ eq_refl).
Defined.

(** X6.  An item that is not a mapping and has no [to_dict] is left out,
    even when it has [items()]: the result is that of the list without it.
    An item whose [to_dict] raises makes the whole call raise. *)
Theorem process_results_skips_or_fails :
  forall (before after : list raw) (o : foreign)
         (fs : option (list string)),
    (f_to_dict o = None ->
     _process_results (before ++ RForeign o :: after) fs
     = _process_results (before ++ after) fs)
    /\ (forall e, f_to_dict o = Some (Raise e) ->
                  exists e', _process_results (before ++ RForeign o :: after) fs
                             = Raise e').
Proof.
  intros before after o fs. split.
  - intros Hnone. induction before as [| [w | o'] rest IH]; simpl.
    + now rewrite Hnone.
    + now rewrite IH.
    + destruct (f_to_dict o') as [[item | e] |]; simpl; [| reflexivity |];
        now rewrite IH.
  - intros e Hraise. induction before as [| [w | o'] rest IH]; simpl.
    + rewrite Hraise. simpl. eauto.
    + destruct IH as [e' ->]. simpl. eauto.
    + destruct (f_to_dict o') as [[item | e0] |]; simpl; eauto.
      destruct IH as [e' ->]. simpl. eauto.
Qed.

(** The theorem at an object with [items()] only and at one whose
    conversion fails, each after the record W1. *)
Lemma process_results_skips_or_fails_witness :
  f_to_dict (Fixture.items_only Sample.record_w1) = None
  /\ _process_results
       [RMapping (plain Sample.record_w1);
        RForeign (Fixture.items_only Sample.record_w1)] (Some [])
     = Ok [Sample.record_w1]
  /\ exists e',
       _process_results
         [RMapping (plain Sample.record_w1);
          RForeign Fixture.broken_conversion] None
       = Raise e'.
Proof.
  split; [reflexivity |]. split.
  - exact (eq_trans
             (proj1 (process_results_skips_or_fails
                       [RMapping (plain Sample.record_w1)] []
                       (Fixture.items_only Sample.record_w1) (Some []))
                eq_refl)
             eq_refl).
  - exact (proj2 (process_results_skips_or_fails
                    [RMapping (plain Sample.record_w1)] []
                    Fixture.broken_conversion None)
             _ eq_refl).
Defined.

(** ** More on the summarizer *)

Section SummaryFields.

Implicit Types (r s : dict) (fs : option (list string)).

(** The parts of [summary_data] when it returns. *)
Lemma summary_data_inv r (data : dict) :
  summary_data r = Ok data ->
  exists authors venue url,
    summary_authors r = Ok authors
    /\ summary_venue r = Ok venue
    /\ summary_oa_url r = Ok url
    /\ data =
         [ ("id", dict_get_default r "id" JNull);
           ("doi", dict_get_default r "doi" JNull);
           ("title", dict_get_default r "title" JNull);
           ("publication_year", dict_get_default r "publication_year" JNull);
           ("authors", JList authors);
           ("cited_by_count", dict_get_default r "cited_by_count" JNull);
           ("venue", venue);
           ("oa_url", url);
           ("abstract", dict_get_default r "abstract" JNull) ].
Proof.
  unfold summary_data.
  destruct (summary_authors r) as [authors |]; simpl; [| discriminate].
  destruct (summary_venue r) as [venue |]; simpl; [| discriminate].
  destruct (summary_oa_url r) as [url |]; simpl; [| discriminate].
  intros [= <-]. exists authors, venue, url. repeat split.
Qed.

Lemma summarize_inv r fs s :
  _summarize_work r fs = Ok s ->
  exists data,
    summary_data r = Ok data
    /\ s = List.filter (fun kv => key_included fs (fst kv)
                                  && negb (is_none (snd kv))) data.
Proof.
  unfold _summarize_work.
  destruct (summary_data r) as [data |]; simpl; [| discriminate].
  intros [= <-]. eauto.
Qed.

Lemma keys_filter_sublist (f : string * json -> bool) (d : dict) :
  sublist (Dict.keys (List.filter f d)) (Dict.keys d).
Proof.
  induction d as [| kv d IH]; simpl; [constructor |].
  destruct (f kv); simpl; now constructor.
Qed.

Lemma truthy_not_none (v : json) : truthy v = true -> is_none v = false.
Proof. destruct v; simpl; congruence. Qed.

(** A primary location that is not a mapping stops the summarizer. *)
Lemma summarize_raises_on_location r fs (v : json) :
  Dict.get r "primary_location" = Some v ->
  is_obj v = false ->
  exists e, _summarize_work r fs = Raise e.
Proof.
  intros Hget Hobj. unfold _summarize_work, summary_data.
  destruct (summary_authors r) as [authors | e]; simpl; [| eauto].
  unfold summary_venue, dict_get_default. rewrite Hget.
  destruct v; try discriminate; simpl; eauto.
Qed.

Lemma mapM_In {A B} (f : A -> result B) (l : list A) (x : A) :
  forall ys, mapM f l = Ok ys -> In x l -> exists y, f x = Ok y.
Proof.
  induction l as [| a l IH]; intros ys; simpl; [intros _ [] |].
  destruct (f a) as [y |] eqn:Hfa; simpl; [| discriminate].
  destruct (mapM f l) as [ys' |]; simpl; [| discriminate].
  intros _ [<- | Hin]; eauto.
Qed.

Lemma mapM_length {A B} (f : A -> result B) (l : list A) :
  forall ys, mapM f l = Ok ys -> length ys = length l.
Proof.
  induction l as [| a l IH]; intros ys; simpl; [now intros [= <-] |].
  destruct (f a); simpl; [| discriminate].
  destruct (mapM f l) as [ys' |]; simpl; [| discriminate].
  intros [= <-]. simpl. now rewrite (IH ys').
Qed.

End SummaryFields.

(** X7.  The keys of a summary are distinct summary keys, and when fields
    are requested every key is a requested one: unlike the field
    selector, the summarizer keeps "id" and "doi" only on request.  An
    empty field list leaves an empty summary. *)
Theorem summarize_keys_are_requested :
  forall (r : dict) (fs : option (list string)) (s : dict),
    _summarize_work r fs = Ok s ->
    List.NoDup (Dict.keys s)
    /\ (forall k, In k (Dict.keys s) ->
                  In k summary_keys /\ key_included fs k = true)
    /\ (forall requested k, fs = Some requested ->
                            In k (Dict.keys s) -> In k requested)
    /\ (fs = Some [] -> s = []).
Proof.
  intros r fs s Hs.
  destruct (summarize_inv r fs s Hs) as (data & Hdata & ->).
  pose proof (summary_data_keys r data Hdata) as Hkeys.
  assert (Hin : forall k,
             In k (Dict.keys
                     (List.filter (fun kv => key_included fs (fst kv)
                                             && negb (is_none (snd kv)))
                                  data)) ->
             In k summary_keys /\ key_included fs k = true).
  { intros k Hk. apply in_map_iff in Hk as ([k' v] & <- & Hkv).
    apply List.filter_In in Hkv as [Hkv Hkeep].
    apply andb_prop in Hkeep as [Hinc _]. split; [| exact Hinc].
    unfold summary_keys. rewrite <- Hkeys.
    apply in_map_iff. exists (k', v). split; [reflexivity | assumption]. }
  split; [| split; [exact Hin | split]].
  - apply NoDup_ListNoDup.
    apply (sublist_NoDup _ (Dict.keys data));
      [| apply keys_filter_sublist].
    rewrite Hkeys. apply NoDup_ListNoDup, summary_keys_nodup.
  - intros requested k -> Hk. apply Hin in Hk as [_ Hinc].
    now apply str_in_In in Hinc.
  - intros ->. simpl. clear Hin Hkeys Hdata Hs.
    induction data as [| kv data IH]; [reflexivity | exact IH].
Qed.

(** The theorem at the record with ten authors, asked for its title. *)
Lemma summarize_keys_are_requested_witness :
  exists s,
    _summarize_work Sample.record_ten (Some ["title"]) = Ok s
    /\ (forall k, In k (Dict.keys s) -> In k ["title"])
    /\ Dict.get s "id" = None.
Proof.
  eexists. split; [reflexivity |].
  destruct (summarize_keys_are_requested Sample.record_ten (Some ["title"])
              _ eq_refl) as (_ & _ & Hreq & _).
  split; [exact (fun k => Hreq ["title"] k eq_refl) | reflexivity].
Defined.

(** X8.  The identifier, DOI, title, year, citation count and abstract of
    a summary are those of the record: a kept key holds the record's value
    when that is present and not null, and is missing from the summary
    otherwise. *)
Theorem summarize_copies_fields :
  forall (r : dict) (fs : option (list string)) (s : dict) (k : string),
    _summarize_work r fs = Ok s ->
    In k copied_keys ->
    key_included fs k = true ->
    Dict.get s k = match Dict.get r k with
                   | Some v => if is_none v then None else Some v
                   | None => None
                   end.
Proof.
  intros r fs s k Hs Hk Hinc.
  destruct (summarize_get r fs s k Hs) as (data & Hdata & ->).
  destruct (summary_data_inv r data Hdata)
    as (authors & venue & url & _ & _ & _ & ->).
  unfold copied_keys in Hk. simpl in Hk.
  destruct Hk as [<- | [<- | [<- | [<- | [<- | [<- | []]]]]]];
    simpl; rewrite Hinc; unfold dict_get_default;
    match goal with
    | |- context [Dict.get r ?key] => destruct (Dict.get r key) as [v |]
    end; simpl; try reflexivity; destruct (is_none v); reflexivity.
Qed.

(** The theorem at a record whose DOI is null. *)
Lemma summarize_copies_fields_witness :
  exists s,
    _summarize_work Fixture.record_full None = Ok s
    /\ Dict.get s "title" = Some (JStr "Seven")
    /\ Dict.get s "doi" = None.
Proof.
  eexists. split; [reflexivity |]. split.
  - exact (summarize_copies_fields Fixture.record_full None _ "title"
             eq_refl (or_intror (or_intror (or_introl eq_refl))) eq_refl).
  - exact (summarize_copies_fields Fixture.record_full None _ "doi"
             eq_refl (or_intror (or_introl eq_refl)) eq_refl).
Defined.

Section SummaryLinks.

Implicit Types (r s : dict) (fs : option (list string)).

(** A PDF link of the best open-access location wins. *)
Lemma summary_oa_url_pdf r (best : dict) (u : json) :
  Dict.get r "best_oa_location" = Some (JObj best) ->
  Dict.get best "pdf_url" = Some u ->
  truthy u = true ->
  summary_oa_url r = Ok u.
Proof.
  intros Hbest Hpdf Hu. unfold summary_oa_url, dict_get_default.
  rewrite Hbest. destruct best as [| kv best]; [discriminate Hpdf |].
  cbn [truthy py_get rbind]. unfold dict_get_default. rewrite Hpdf, Hu.
  reflexivity.
Qed.

(** Without such a link the landing page of [open_access] is used. *)
Lemma summary_oa_url_fallback r (oa : dict) (u : json) :
  truthy (dict_get_default r "best_oa_location" JNull) = false
  \/ (exists best, Dict.get r "best_oa_location" = Some (JObj best)
                   /\ truthy (dict_get_default best "pdf_url" JNull) = false) ->
  Dict.get r "open_access" = Some (JObj oa) ->
  Dict.get oa "oa_url" = Some u ->
  truthy u = true ->
  summary_oa_url r = Ok u.
Proof.
  intros Hbest Hoa Hurl Hu. unfold summary_oa_url.
  assert (Hopen : py_get (dict_get_default r "open_access" (JObj []))
                         "oa_url" JNull = Ok u).
  { unfold dict_get_default. rewrite Hoa. simpl.
    unfold dict_get_default. now rewrite Hurl. }
  destruct Hbest as [Hfalsy | (best & Hget & Hpdf)].
  - rewrite Hfalsy. cbn [rbind]. rewrite Hopen. cbn [rbind]. now rewrite Hu.
  - unfold dict_get_default at 1 2. rewrite Hget.
    destruct (truthy (JObj best)); cbn [py_get rbind]; rewrite ?Hpdf;
      rewrite Hopen; cbn [rbind]; now rewrite Hu.
Qed.

Lemma summarize_get_oa_url r fs s (url : json) :
  _summarize_work r fs = Ok s ->
  key_included fs "oa_url" = true ->
  summary_oa_url r = Ok url ->
  Dict.get s "oa_url" = if is_none url then None else Some url.
Proof.
  intros Hs Hinc Hurl.
  destruct (summarize_get r fs s "oa_url" Hs) as (data & Hdata & ->).
  destruct (summary_data_inv r data Hdata)
    as (authors & venue & url' & _ & _ & Hurl' & ->).
  rewrite Hurl in Hurl'. injection Hurl' as <-.
  simpl. rewrite Hinc. now destruct (is_none url).
Qed.

Lemma summarize_get_venue r fs s (venue : json) :
  _summarize_work r fs = Ok s ->
  key_included fs "venue" = true ->
  summary_venue r = Ok venue ->
  Dict.get s "venue" = if is_none venue then None else Some venue.
Proof.
  intros Hs Hinc Hvenue.
  destruct (summarize_get r fs s "venue" Hs) as (data & Hdata & ->).
  destruct (summary_data_inv r data Hdata)
    as (authors & venue' & url & _ & Hvenue' & _ & ->).
  rewrite Hvenue in Hvenue'. injection Hvenue' as <-.
  simpl. rewrite Hinc. now destruct (is_none venue).
Qed.

End SummaryLinks.

(** X9.  The open-access link of a summary is the PDF link of the best
    open-access location when there is one; when that location is missing,
    null or without a PDF link, it is the landing page recorded under
    "open_access". *)
Theorem summarize_prefers_pdf_url :
  forall (r : dict) (fs : option (list string)) (s : dict),
    _summarize_work r fs = Ok s ->
    key_included fs "oa_url" = true ->
    (forall best u,
        Dict.get r "best_oa_location" = Some (JObj best) ->
        Dict.get best "pdf_url" = Some u ->
        truthy u = true ->
        Dict.get s "oa_url" = Some u)
    /\ (forall oa u,
           truthy (dict_get_default r "best_oa_location" JNull) = false
           \/ (exists best,
                  Dict.get r "best_oa_location" = Some (JObj best)
                  /\ truthy (dict_get_default best "pdf_url" JNull) = false) ->
           Dict.get r "open_access" = Some (JObj oa) ->
           Dict.get oa "oa_url" = Some u ->
           truthy u = true ->
           Dict.get s "oa_url" = Some u).
Proof.
  intros r fs s Hs Hinc. split.
  - intros best u Hbest Hpdf Hu.
    rewrite (summarize_get_oa_url r fs s u Hs Hinc
               (summary_oa_url_pdf r best u Hbest Hpdf Hu)).
    now rewrite (truthy_not_none u Hu).
  - intros oa u Hbest Hoa Hurl Hu.
    rewrite (summarize_get_oa_url r fs s u Hs Hinc
               (summary_oa_url_fallback r oa u Hbest Hoa Hurl Hu)).
    now rewrite (truthy_not_none u Hu).
Qed.

(** The theorem at a record with both links: the PDF is chosen. *)
Lemma summarize_prefers_pdf_url_witness :
  exists s,
    _summarize_work Fixture.record_full None = Ok s
    /\ Dict.get s "oa_url" = Some (JStr "https://x/p.pdf").
Proof.
  eexists. split; [reflexivity |].
  exact (proj1 (summarize_prefers_pdf_url Fixture.record_full None _
                  eq_refl eq_refl)
           [("pdf_url", JStr "https://x/p.pdf")] (JStr "https://x/p.pdf")
           eq_refl eq_refl eq_refl).
Defined.

(** X10.  The venue of a summary is the display name of the source of the
    primary location; a primary location whose source is null or missing
    gives a summary without a "venue" key. *)
Theorem summarize_venue_from_source :
  forall (r : dict) (fs : option (list string)) (s : dict) (location : dict),
    _summarize_work r fs = Ok s ->
    key_included fs "venue" = true ->
    Dict.get r "primary_location" = Some (JObj location) ->
    (forall source name,
        Dict.get location "source" = Some (JObj source) ->
        Dict.get source "display_name" = Some name ->
        name <> JNull ->
        Dict.get s "venue" = Some name)
    /\ (Dict.get location "source" = Some JNull
        \/ Dict.get location "source" = None ->
        Dict.get s "venue" = None).
Proof.
  intros r fs s location Hs Hinc Hloc. split.
  - intros source name Hsource Hname Hnot_null.
    assert (Hvenue : summary_venue r = Ok name).
    { unfold summary_venue, dict_get_default. rewrite Hloc. simpl.
      unfold dict_get_default. rewrite Hsource.
      destruct source as [| kv source]; [discriminate Hname |].
      cbn [truthy py_get]. unfold dict_get_default. now rewrite Hname. }
    rewrite (summarize_get_venue r fs s name Hs Hinc Hvenue).
    destruct name; simpl; congruence.
  - intros Hsource.
    assert (Hvenue : summary_venue r = Ok JNull).
    { unfold summary_venue, dict_get_default. rewrite Hloc. simpl.
      unfold dict_get_default. destruct Hsource as [-> | ->]; reflexivity. }
    now rewrite (summarize_get_venue r fs s JNull Hs Hinc Hvenue).
Qed.

(** The theorem at a record published in "Journal". *)
Lemma summarize_venue_from_source_witness :
  exists s,
    _summarize_work Fixture.record_full None = Ok s
    /\ Dict.get s "venue" = Some (JStr "Journal").
Proof.
  eexists. split; [reflexivity |].
  refine (proj1 (summarize_venue_from_source Fixture.record_full None _
                   [("source", JObj [("display_name", JStr "Journal")])]
                   eq_refl eq_refl eq_refl)
            [("display_name", JStr "Journal")] (JStr "Journal")
            eq_refl eq_refl _).
  discriminate.
Defined.

(** ** Listings *)

Section Listings.

Implicit Types (c : client) (q : query) (t : trace)
         (fs : option (list string)).

(** When the client delivers a page, [first_page] hands on its items. *)
Lemma first_page_delivered c q (per_page : Z) (cursor : option string) t
    (pg : page) :
  works_next_page c q per_page cursor = Ok pg ->
  exists t' metadata,
    first_page c q per_page cursor t = (t', Ok (page_items pg, metadata)).
Proof.
  intros Hpage. unfold first_page, m_try_except, mbind, request, mret, lift.
  rewrite Hpage. destruct (page_meta pg) as [meta |]; [eauto |].
  destruct (works_get_meta c) as [get_meta |]; [| eauto].
  destruct (get_meta q) as [raw_meta | e]; [| eauto].
  destruct (py_get raw_meta "meta" (JObj [])); eauto.
Qed.

(** The summaries of a page cannot be built when one of its records has a
    primary location that is not a mapping. *)
Lemma summaries_raise fs (results : list raw) (w : work) (v : json) :
  In (RMapping w) results ->
  Dict.get (w_items w) "primary_location" = Some v ->
  is_obj v = false ->
  exists e,
    (processed <- _process_results results None ;;
     mapM (fun item => _summarize_work item fs) processed) = Raise e.
Proof.
  intros Hin Hloc Hobj.
  destruct (_process_results results None) as [processed | e] eqn:Hproc;
    simpl; [| eauto].
  destruct (mapM _ processed) as [summaries | e] eqn:Hmap; [| eauto].
  pose proof (process_results_In None w results processed Hproc Hin) as Hw.
  destruct (mapM_In _ processed _ summaries Hmap Hw) as [s Hs].
  destruct (summarize_raises_on_location (process_item w None) fs v)
    as [e He]; [| exact Hobj | congruence].
  rewrite process_item_other_keys by discriminate. exact Hloc.
Qed.

(** The rest of a summarizing listing, from the page on. *)
Lemma summarized_listing_raises c q (per_page : Z) (cursor : option string)
    t fs (pg : page) (w : work) (v : json) :
  works_next_page c q per_page cursor = Ok pg ->
  In (RMapping w) (page_items pg) ->
  Dict.get (w_items w) "primary_location" = Some v ->
  is_obj v = false ->
  exists e,
    snd (mbind (first_page c q per_page cursor)
           (fun pm =>
              mbind (lift (_process_results (fst pm) None))
                (fun processed =>
                   mbind (lift (mapM (fun item => _summarize_work item fs)
                                     processed))
                     (fun final_results =>
                        lift (page_response final_results (snd pm)
                                per_page)))) t)
    = Raise e.
Proof.
  intros Hpage Hin Hloc Hobj.
  destruct (first_page_delivered c q per_page cursor t pg Hpage)
    as (t' & metadata & Hfirst).
  destruct (summaries_raise fs (page_items pg) w v Hin Hloc Hobj) as [e He].
  unfold mbind, lift. rewrite Hfirst. cbn [fst snd].
  destruct (_process_results (page_items pg) None) as [processed | e0];
    simpl in He |- *; [| eauto].
  rewrite He. simpl. eauto.
Qed.

End Listings.

(** X11.  One record with a primary location that is not a mapping, null
    for instance, fails a whole summarized page: whatever else the page
    holds, [search_works] and [get_citing_works] return the error mapping
    with empty results. *)
Theorem summarized_page_fails_on_malformed_location :
  forall (c : client) (pg : page) (w : work) (v : json) (per_page : Z)
         (cursor : option string),
    (forall q, works_next_page c q per_page cursor = Ok pg) ->
    In (RMapping w) (page_items pg) ->
    Dict.get (w_items w) "primary_location" = Some v ->
    is_obj v = false ->
    (forall search_query filters search_field fs sort t,
        exists e,
          snd (search_works c search_query filters search_field fs sort true
                 per_page cursor t)
          = Ok [("error", JStr (exn_str e)); ("results", JList []);
                ("meta", JObj [])])
    /\ (forall work_id fs t,
           exists e,
             snd (get_citing_works c work_id fs true per_page cursor t)
             = Ok [("error", JStr (exn_str e)); ("results", JList []);
                   ("meta", JObj [])]).
Proof.
  intros c pg w v per_page cursor Hpage Hin Hloc Hobj. split.
  - intros search_query filters search_field fs sort t.
    unfold search_works. rewrite (guarded_outcome _ page_error).
    assert (Hbody : exists e,
               snd (search_works_body c search_query filters search_field
                      fs sort true per_page cursor t) = Raise e).
    { unfold search_works_body.
      unfold mbind at 1, lift at 1.
      destruct (search_query_of search_field search_query) as [q0 | e];
        [| simpl; eauto].
      unfold mbind at 1, request at 1.
      destruct (works_count c q0) as [n | e]; [| simpl; eauto].
      cbn [negb andb].
      apply (summarized_listing_raises c _ per_page cursor _ fs pg w v);
        auto. }
    destruct Hbody as [e ->]. exists e. reflexivity.
  - intros work_id fs t.
    unfold get_citing_works. rewrite (guarded_outcome _ page_error).
    assert (Hbody : exists e,
               snd (get_citing_works_body c work_id fs true per_page
                      cursor t) = Raise e).
    { unfold get_citing_works_body. cbn [negb andb].
      apply (summarized_listing_raises c _ per_page cursor _ fs pg w v);
        auto. }
    destruct Hbody as [e ->]. exists e. reflexivity.
Qed.

(** The theorem at a page of two records, the second with a null primary
    location. *)
Lemma summarized_page_fails_witness :
  exists e,
    snd (search_works
           (Fixture.paging_client
              [RMapping (plain Sample.record_w1);
               RMapping (plain Fixture.record_null_location)]
              (Some (JObj [])))
           "cats" None "default" None None true 25 (Some "*") [])
    = Ok [("error", JStr (exn_str e)); ("results", JList []);
          ("meta", JObj [])].
Proof.
  refine (proj1 (summarized_page_fails_on_malformed_location
                   (Fixture.paging_client
                      [RMapping (plain Sample.record_w1);
                       RMapping (plain Fixture.record_null_location)]
                      (Some (JObj [])))
                   _ (plain Fixture.record_null_location) JNull 25
                   (Some "*") (fun _ => eq_refl) _ eq_refl eq_refl)
            "cats" None "default" None None []).
  simpl. auto.
Defined.

Section ListingShape.

Implicit Types (c : client) (q : query) (t : trace)
         (fs : option (list string)).

(** An exhausted listing is an empty page with synthesized metadata. *)
Lemma first_page_exhausted c q (per_page : Z) (cursor : option string) t
    (e : exn) :
  works_next_page c q per_page cursor = Raise e ->
  is_stop_iteration e = true ->
  first_page c q per_page cursor t
  = (t ++ [CallNextPage q per_page cursor],
     Ok ([], JObj [("count", JNum 0); ("page", JNum 1);
                   ("per_page", JNum per_page); ("next_cursor", JNull)])).
Proof.
  intros Hpage Hstop.
  unfold first_page, m_try_except, mbind, request, mret.
  rewrite Hpage, Hstop. reflexivity.
Qed.

(** A bind whose continuation makes no request logs what its first part
    logs. *)
Lemma mbind_silent {A B} (m : M A) (k : A -> M B) t :
  (forall a t', fst (k a t') = t') -> fst (mbind m k t) = fst (m t).
Proof.
  intros Hk. unfold mbind. destruct (m t) as [t' [a | e]]; simpl; auto.
Qed.

Lemma lift_silent {A} (r : result A) t : fst (lift r t) = t.
Proof. reflexivity. Qed.

Lemma mret_silent {A} (a : A) t : fst (mret a t) = t.
Proof. reflexivity. Qed.

Lemma guarded_silent {A} (body : M A) (on_error : exn -> A) t :
  fst (m_try_except body (fun e => mret (on_error e)) t) = fst (body t).
Proof.
  unfold m_try_except, mret. destruct (body t) as [t' [a | e]]; reflexivity.
Qed.

(** The requests of [first_page]: the page, then at most the metadata. *)
Lemma first_page_requests c q (per_page : Z) (cursor : option string) t :
  fst (first_page c q per_page cursor t) = t ++ [CallNextPage q per_page cursor]
  \/ fst (first_page c q per_page cursor t)
     = t ++ [CallNextPage q per_page cursor; CallGetMeta q].
Proof.
  unfold first_page, m_try_except, mbind, request, mret, mraise, lift.
  destruct (works_next_page c q per_page cursor) as [pg | e].
  - destruct (page_meta pg); [now left |].
    destruct (works_get_meta c) as [get_meta |]; [| now left].
    right. rewrite <- app_assoc.
    destruct (get_meta q) as [raw_meta |]; [| reflexivity].
    destruct (py_get raw_meta "meta" (JObj [])); reflexivity.
  - left. destruct (is_stop_iteration e); reflexivity.
Qed.

(** The part of a listing after the page makes no request. *)
Lemma listing_tail_silent fs fs' (summarize : bool) (per_page : Z)
    (pm : list raw * json) t :
  fst (mbind (lift (_process_results (fst pm) fs'))
         (fun processed =>
            mbind (if summarize
                   then lift (mapM (fun item => _summarize_work item fs)
                                   processed)
                   else mret processed)
              (fun final_results =>
                 lift (page_response final_results (snd pm) per_page))) t)
  = t.
Proof.
  unfold mbind, lift, mret.
  destruct (_process_results (fst pm) fs') as [processed |]; [| reflexivity].
  destruct summarize; simpl.
  - destruct (mapM _ processed); reflexivity.
  - reflexivity.
Qed.

(** A page response has the two keys of the envelope and the three of
    its metadata. *)
Lemma page_response_inv (final_results : list dict) (metadata : json)
    (per_page : Z) (d : dict) :
  page_response final_results metadata per_page = Ok d ->
  exists count pp next_cursor,
    d = [("results", JList (List.map JObj final_results));
         ("meta", JObj [("count", count); ("per_page", pp);
                        ("next_cursor", next_cursor)])].
Proof.
  unfold page_response.
  destruct (py_get metadata "count" JNull) as [count |]; simpl;
    [| discriminate].
  destruct (py_get metadata "per_page" (JNum per_page)) as [pp |]; simpl;
    [| discriminate].
  destruct (py_get metadata "next_cursor" JNull) as [next_cursor |]; simpl;
    [| discriminate].
  intros [= <-]. eauto.
Qed.

Lemma listing_tail_inv fs fs' (summarize : bool) (per_page : Z)
    (pm : list raw * json) t (d : dict) :
  snd (mbind (lift (_process_results (fst pm) fs'))
         (fun processed =>
            mbind (if summarize
                   then lift (mapM (fun item => _summarize_work item fs)
                                   processed)
                   else mret processed)
              (fun final_results =>
                 lift (page_response final_results (snd pm) per_page))) t)
  = Ok d ->
  exists final_results count pp next_cursor,
    length final_results <= length (fst pm)
    /\ d = [("results", JList (List.map JObj final_results));
            ("meta", JObj [("count", count); ("per_page", pp);
                           ("next_cursor", next_cursor)])].
Proof.
  unfold mbind, lift, mret.
  destruct (_process_results (fst pm) fs') as [processed |] eqn:Hproc;
    [| discriminate].
  apply process_results_length in Hproc.
  destruct summarize; simpl.
  - destruct (mapM _ processed) as [summaries |] eqn:Hmap; [| discriminate].
    apply mapM_length in Hmap. simpl.
    intros H. apply page_response_inv in H as (count & pp & nc & ->).
    exists summaries, count, pp, nc. split; [| reflexivity].
    apply (Nat.le_trans _ (length processed));
      [apply Nat.eq_le_incl; exact Hmap | exact Hproc].
  - intros H. apply page_response_inv in H as (count & pp & nc & ->).
    exists processed, count, pp, nc. split; [exact Hproc | reflexivity].
Qed.

End ListingShape.

(** X12.  When the listing is exhausted, [next(pager)] raising
    [StopIteration], both listings return no results with the metadata of
    an empty page: count 0, the requested page size and no next cursor.
    For [search_works] this is so when the search field is accepted and
    the count request succeeds. *)
Theorem exhausted_listing_is_empty_page :
  forall (c : client) (per_page : Z) (cursor : option string) (e : exn),
    (forall q, works_next_page c q per_page cursor = Raise e) ->
    is_stop_iteration e = true ->
    (forall search_query filters search_field fs sort summarize t q0 n,
        search_query_of search_field search_query = Ok q0 ->
        works_count c q0 = Ok n ->
        snd (search_works c search_query filters search_field fs sort
               summarize per_page cursor t)
        = Ok [("results", JList []);
              ("meta", JObj [("count", JNum 0); ("per_page", JNum per_page);
                             ("next_cursor", JNull)])])
    /\ (forall work_id fs summarize t,
           snd (get_citing_works c work_id fs summarize per_page cursor t)
           = Ok [("results", JList []);
                 ("meta", JObj [("count", JNum 0);
                                ("per_page", JNum per_page);
                                ("next_cursor", JNull)])]).
Proof.
  intros c per_page cursor e Hpage Hstop. split.
  - intros search_query filters search_field fs sort summarize t q0 n Hq Hn.
    unfold search_works, search_works_body, m_try_except.
    unfold mbind at 1, lift at 1. rewrite Hq.
    unfold mbind at 1, request at 1. rewrite Hn.
    unfold mbind at 1.
    rewrite (first_page_exhausted c _ per_page cursor _ e (Hpage _) Hstop).
    destruct summarize; reflexivity.
  - intros work_id fs summarize t.
    unfold get_citing_works, get_citing_works_body, m_try_except.
    unfold mbind at 1.
    rewrite (first_page_exhausted c _ per_page cursor _ e (Hpage _) Hstop).
    destruct summarize; reflexivity.
Qed.

(** The theorem at a client whose listing is exhausted. *)
Lemma exhausted_listing_witness :
  snd (get_citing_works Fixture.exhausted_client "W1" None true 25
         (Some "*") [])
  = Ok [("results", JList []);
        ("meta", JObj [("count", JNum 0); ("per_page", JNum 25);
                       ("next_cursor", JNull)])].
Proof.
  exact (proj2 (exhausted_listing_is_empty_page Fixture.exhausted_client 25
                  (Some "*") (builtin_exn StopIteration EmptyString)
                  (fun _ => eq_refl) eq_refl)
           "W1" None true []).
Defined.

Section ListingRequests.

Implicit Types (c : client) (q : query) (t : trace)
         (fs : option (list string)).




(** The items [first_page] hands on are those of a delivered page, or
    none. *)
Lemma first_page_items c q (per_page : Z) (cursor : option string) t t'
    (pm : list raw * json) :
  first_page c q per_page cursor t = (t', Ok pm) ->
  fst pm = []
  \/ exists pg, works_next_page c q per_page cursor = Ok pg
                /\ fst pm = page_items pg.
Proof.
  unfold first_page, m_try_except, mbind, request, mret, mraise, lift.
  destruct (works_next_page c q per_page cursor) as [pg | e].
  - intros H. right. exists pg. split; [reflexivity |].
    destruct (page_meta pg); [now injection H as _ <- |].
    destruct (works_get_meta c) as [get_meta |]; [| now injection H as _ <-].
    destruct (get_meta q) as [raw_meta |]; [| now injection H as _ <-].
    destruct (py_get raw_meta "meta" (JObj [])); now injection H as _ <-.
  - destruct (is_stop_iteration e); [| discriminate].
    intros H. left. now injection H as _ <-.
Qed.

End ListingRequests.

(** X13.  A search field other than "default" and the five field names is
    refused before any request is made: the error names the field and the
    log of calls is unchanged.  The field "display_name" is searched as
    "title": both make the same calls and return the same result. *)
Theorem search_works_search_field :
  forall (c : client) (search_query : string) (filters : option dict)
         (fs : option (list string)) (sort : option (list (string * string)))
         (summarize : bool) (per_page : Z) (cursor : option string)
         (t : trace),
    (forall search_field,
        search_field <> "default" ->
        ~ In search_field search_fields ->
        search_works c search_query filters search_field fs sort summarize
          per_page cursor t
        = (t, Ok [("error", JStr ("Invalid search_field: " ++ search_field));
                  ("results", JList []); ("meta", JObj [])]))
    /\ search_works c search_query filters "display_name" fs sort summarize
         per_page cursor t
       = search_works c search_query filters "title" fs sort summarize
           per_page cursor t.
Proof.
  intros c search_query filters fs sort summarize per_page cursor t.
  split; [| reflexivity].
  intros search_field Hdefault Hfield.
  unfold search_works, search_works_body, m_try_except.
  unfold mbind at 1, lift at 1. unfold search_query_of.
  destruct (String.eqb_spec search_field "default"); [contradiction |].
  destruct (str_in search_field _) eqn:Hin; [| reflexivity].
  apply str_in_In in Hin. contradiction.
Qed.

(** The theorem at the field "publisher". *)
Lemma search_works_search_field_witness :
  "publisher" <> "default"
  /\ ~ In "publisher" search_fields
  /\ search_works (Sample.serving_client None []) "cats" None "publisher"
       None None true 25 (Some "*") []
     = ([], Ok [("error", JStr "Invalid search_field: publisher");
                ("results", JList []); ("meta", JObj [])]).
Proof.
  assert (Hdefault : "publisher" <> "default") by discriminate.
  assert (Hfield : ~ In "publisher" search_fields).
  { unfold search_fields. simpl. intuition discriminate. }
  split; [exact Hdefault | split; [exact Hfield |]].
  exact (proj1 (search_works_search_field (Sample.serving_client None [])
                  "cats" None None None true 25 (Some "*") [])
           "publisher" Hdefault Hfield).
Defined.

(** X14.  Both listings always answer with a mapping that has the keys
    "results" and "meta": either the error mapping with empty results, or
    a page whose metadata holds exactly "count", "per_page" and
    "next_cursor" and whose results are no more than the items of the
    page the client delivered. *)
Theorem listing_response_shape :
  forall (c : client) (fs : option (list string)) (summarize : bool)
         (per_page : Z) (cursor : option string) (t : trace),
    let shaped (d : dict) :=
      (exists e, d = [("error", JStr (exn_str e)); ("results", JList []);
                      ("meta", JObj [])])
      \/ (exists results count pp next_cursor,
             d = [("results", JList (List.map JObj results));
                  ("meta", JObj [("count", count); ("per_page", pp);
                                 ("next_cursor", next_cursor)])]
             /\ (results = []
                 \/ exists q pg,
                      works_next_page c q per_page cursor = Ok pg
                      /\ length results <= length (page_items pg))) in
    (forall search_query filters search_field sort,
        exists d,
          snd (search_works c search_query filters search_field fs sort
                 summarize per_page cursor t) = Ok d
          /\ shaped d)
    /\ (forall work_id,
           exists d,
             snd (get_citing_works c work_id fs summarize per_page cursor t)
             = Ok d
             /\ shaped d).
Proof.
  intros c fs summarize per_page cursor t shaped.
  assert (Htail : forall q fs' t0 d,
             snd (mbind (first_page c q per_page cursor)
                    (fun pm =>
                       mbind (lift (_process_results (fst pm) fs'))
                         (fun processed =>
                            mbind (if summarize
                                   then lift (mapM (fun item =>
                                                      _summarize_work item fs)
                                                   processed)
                                   else mret processed)
                              (fun final_results =>
                                 lift (page_response final_results (snd pm)
                                         per_page)))) t0) = Ok d ->
             shaped d).
  { intros q fs' t0 d. unfold mbind at 1.
    destruct (first_page c q per_page cursor t0) as [t1 [pm | e]] eqn:Hfirst;
      [| discriminate].
    intros Hd.
    apply listing_tail_inv in Hd as (results & count & pp & nc & Hlen & ->).
    right. exists results, count, pp, nc. split; [reflexivity |].
    destruct (first_page_items c q per_page cursor t0 t1 pm Hfirst)
      as [Hnil | (pg & Hpg & Hitems)].
    - left. rewrite Hnil in Hlen. destruct results; [reflexivity |].
      simpl in Hlen. lia.
    - right. exists q, pg. split; [exact Hpg | now rewrite <- Hitems]. }
  split.
  - intros search_query filters search_field sort.
    unfold search_works. rewrite (guarded_outcome _ page_error).
    destruct (snd (search_works_body c search_query filters search_field fs
                     sort summarize per_page cursor t)) as [d | e] eqn:Hbody.
    + exists d. split; [reflexivity |].
      unfold search_works_body in Hbody.
      unfold mbind at 1, lift at 1 in Hbody.
      destruct (search_query_of search_field search_query) as [q0 |];
        [| discriminate].
      unfold mbind at 1, request at 1 in Hbody.
      destruct (works_count c q0); [| discriminate].
      eapply Htail, Hbody.
    + eexists. split; [reflexivity |]. left. exists e. reflexivity.
  - intros work_id.
    unfold get_citing_works. rewrite (guarded_outcome _ page_error).
    destruct (snd (get_citing_works_body c work_id fs summarize per_page
                     cursor t)) as [d | e] eqn:Hbody.
    + exists d. split; [reflexivity |].
      unfold get_citing_works_body in Hbody. eapply Htail, Hbody.
    + eexists. split; [reflexivity |]. left. exists e. reflexivity.
Qed.


(** ** More on batch lookups *)

Section BatchFields.

Implicit Types (c : client) (t : trace) (fs : option (list string)).

(** The fields the batch lookup asks the client for. *)
Lemma api_select_fields_In (fields : list string) (k : string) :
  In k (api_select_fields fields) <->
  k <> "abstract"
  /\ (In k fields \/ k = "id"
      \/ (k = "abstract_inverted_index" /\ In "abstract" fields)).
Proof.
  unfold api_select_fields.
  set (api := List.filter (fun field => negb (String.eqb field "abstract"))
                          fields).
  assert (Hapi : forall x, In x api <-> In x fields /\ x <> "abstract").
  { intros x. unfold api. rewrite List.filter_In.
    destruct (String.eqb_spec x "abstract"); simpl; intuition congruence. }
  set (api' := if str_in "abstract" fields
                  && negb (str_in "abstract_inverted_index" api)
               then api ++ ["abstract_inverted_index"] else api).
  assert (Hapi' : forall x,
             In x api' <->
             In x api \/ (x = "abstract_inverted_index"
                          /\ In "abstract" fields)).
  { intros x. unfold api'.
    destruct (str_in "abstract" fields) eqn:Ha; simpl.
    - apply str_in_In in Ha.
      destruct (str_in "abstract_inverted_index" api) eqn:Hi; simpl.
      + apply str_in_In in Hi. intuition (subst; auto).
      + rewrite in_app_iff. simpl. intuition (subst; auto).
    - assert (~ In "abstract" fields).
      { intros H. apply str_in_In in H. congruence. }
      tauto. }
  assert (Hid : forall x,
             In x (if negb (str_in "id" api') then "id" :: api' else api')
             <-> x = "id" \/ In x api').
  { intros x. destruct (str_in "id" api') eqn:Hin; simpl.
    - apply str_in_In in Hin. intuition (subst; auto).
    - intuition (subst; auto). }
  rewrite Hid, Hapi', Hapi.
  split.
  - intros [-> | [[H1 H2] | [-> H]]];
      (split; [try assumption; discriminate | auto]).
  - intros [Hne [H | [-> | [-> H]]]]; auto.
Qed.

(** With fields given, a batch record has no key beyond them and the
    identifiers. *)
Lemma batch_item_keys (work_dict : dict) (getitem : option (result json))
    (f : string) (fields : list string) (k : string) :
  In k (Dict.keys (batch_item work_dict getitem (Some (f :: fields)))) ->
  In k (f :: fields) \/ k = "id" \/ k = "doi".
Proof.
  intros Hk. apply keys_get_Some in Hk as [v Hv].
  unfold batch_item in Hv.
  cbn [fields_given default from_option id andb] in Hv.
  set (requested := str_in "abstract_inverted_index" (f :: fields)) in *.
  assert (Hsel : forall d l,
             Dict.get (_select_fields d l) k = Some v ->
             In k l \/ k = "id" \/ k = "doi").
  { intros d l H. rewrite get_select_fields in H.
    destruct (str_in k (l ++ ["id"; "doi"])) eqn:Hin; [| discriminate].
    apply str_in_In, in_app_iff in Hin. simpl in Hin. intuition. }
  assert (Hdone : forall shaped,
             (Dict.get shaped k = Some v ->
              k <> "abstract_inverted_index" ->
              In k (f :: fields) \/ k = "id" \/ k = "doi") ->
             Dict.get (if Dict.mem shaped "abstract_inverted_index"
                          && negb requested
                       then Dict.del shaped "abstract_inverted_index"
                       else shaped) k = Some v ->
             In k (f :: fields) \/ k = "id" \/ k = "doi").
  { intros shaped Hshaped Hget.
    destruct (String.eqb_spec k "abstract_inverted_index") as [-> | Hne].
    - destruct (Dict.mem shaped _ && negb requested) eqn:Hdel.
      + rewrite get_del_eq in Hget. discriminate.
      + unfold requested in Hdel.
        destruct (str_in "abstract_inverted_index" (f :: fields)) eqn:Hreq.
        * left. now apply str_in_In.
        * rewrite andb_true_r in Hdel. unfold Dict.mem in Hdel.
          rewrite Hget in Hdel. discriminate.
    - apply Hshaped; [| exact Hne].
      destruct (Dict.mem shaped _ && negb requested);
        [now rewrite get_del_ne in Hget by congruence | exact Hget]. }
  destruct (str_in "abstract" (f :: fields)) eqn:Habs;
    cbn [orb negb] in Hv; apply Hdone in Hv; [exact Hv | | exact Hv |];
    intros Hget Hne; apply Hsel in Hget.
  - destruct Hget as [Hin | Hids]; [| now right].
    apply in_app_iff in Hin as [Hin | [<- | []]].
    + apply api_select_fields_In in Hin as [_ [H | [H | [H _]]]];
        [now left | now right; left | contradiction].
    + left. now apply str_in_In.
  - destruct Hget as [Hin | Hids]; [| now right].
    apply api_select_fields_In in Hin as [_ [H | [H | [H _]]]];
      [now left | now right; left | contradiction].
Qed.

(** When the abstract is wanted, a batch record has the key. *)
Lemma batch_item_has_abstract (work_dict : dict)
    (getitem : option (result json)) fs :
  fields_given fs = false \/ str_in "abstract" (default [] fs) = true ->
  Dict.mem (batch_item work_dict getitem fs) "abstract" = true.
Proof.
  intros Hwanted. unfold batch_item.
  assert (Hcond : fields_given fs && str_in "abstract" (default [] fs)
                  || negb (fields_given fs) = true).
  { destruct Hwanted as [-> | ->]; [reflexivity |].
    destruct (fields_given fs); reflexivity. }
  rewrite Hcond.
  match goal with
  | |- context [_select_fields ?wd _] => set (attached := wd)
  end.
  assert (Hattached : Dict.get attached "abstract" <> None).
  { unfold attached.
    destruct (Dict.mem work_dict "abstract_inverted_index").
    - destruct (match getitem with Some _ => _ | None => _ end);
        now rewrite get_set_eq.
    - now rewrite get_set_eq. }
  assert (Hdone : forall shaped,
             Dict.get shaped "abstract" <> None ->
             Dict.mem (if Dict.mem shaped "abstract_inverted_index"
                          && negb (fields_given fs
                                   && str_in "abstract_inverted_index"
                                             (default [] fs))
                       then Dict.del shaped "abstract_inverted_index"
                       else shaped) "abstract" = true).
  { intros shaped Hshaped.
    destruct (Dict.mem shaped "abstract_inverted_index" && _);
      unfold Dict.mem.
    - rewrite get_del_ne by discriminate.
      destruct (Dict.get shaped "abstract"); congruence.
    - destruct (Dict.get shaped "abstract"); congruence. }
  apply Hdone.
  destruct fs as [[| f fields] |]; try exact Hattached.
  destruct Hwanted as [Hgiven | Habs]; [discriminate |].
  cbn [fields_given default from_option id andb] in *. rewrite Habs.
  rewrite get_select_fields.
  replace (str_in "abstract" ((api_select_fields (f :: fields)
                               ++ ["abstract"]) ++ ["id"; "doi"]))
    with true; [exact Hattached |].
  symmetry. apply str_in_In. rewrite !in_app_iff. simpl. auto.
Qed.

(** What holds of every record [batch_item] builds holds of every record
    the batch lookup returns. *)
Lemma get_batch_works_Forall (P : dict -> Prop) c (ids : list string) fs t
    (resp : dict) (works : list json) :
  (forall work_dict getitem, P (batch_item work_dict getitem fs)) ->
  snd (get_batch_work_details c ids fs t) = Ok resp ->
  Dict.get resp "works" = Some (JList works) ->
  forall w, In w works -> exists d, w = JObj d /\ P d.
Proof.
  intros HP Hrun Hworks w Hw.
  unfold get_batch_work_details in Hrun.
  destruct ids as [| id ids].
  { injection Hrun as <-. injection Hworks as <-. destruct Hw. }
  destruct (Nat.ltb MAX_IDS (length (id :: ids))).
  { injection Hrun as <-. injection Hworks as <-. destruct Hw. }
  rewrite get_batch_guarded in Hrun. cbn [snd] in Hrun.
  destruct (works_get c (batch_query (id :: ids) fs)) as [rs | e];
    cbn [rbind] in Hrun.
  - destruct (batch_loop rs fs) as [processed | e] eqn:Hloop.
    + injection Hrun as <-. injection Hworks as <-.
      apply in_map_iff in Hw as (d & <- & Hd).
      pose proof (batch_loop_Forall P fs HP rs processed Hloop) as Hall.
      rewrite List.Forall_forall in Hall. eauto.
    + injection Hrun as <-. injection Hworks as <-. destruct Hw.
  - injection Hrun as <-. injection Hworks as <-. destruct Hw.
Qed.

End BatchFields.

(** X16.  With one to fifty identifiers the batch lookup sends the client
    one request and builds its answer from the reply to it.  The request
    filters on the identifiers, each stripped of the URL prefix and joined
    by bars.  Without fields it selects nothing; with fields it selects the
    given ones without "abstract", with "id" added, and with
    "abstract_inverted_index" added when "abstract" was given. *)
Theorem get_batch_work_details_request :
  forall (c : client) (ids : list string) (fs : option (list string))
         (t : trace),
    1 <= length ids <= 50 ->
    exists q,
      fst (get_batch_work_details c ids fs t) = t ++ [CallGet q]
      /\ snd (get_batch_work_details c ids fs t)
         = match (results_list <- works_get c q ;;
                  batch_loop results_list fs) with
           | Ok processed => Ok [("works", JList (List.map JObj processed))]
           | Raise e => Ok [("error", JStr (exn_str e)); ("works", JList [])]
           end
      /\ q_filter q
         = [("ids",
             JObj [("openalex",
                    JStr (String.concat "|"
                            (List.map strip_url_prefix ids)))])]
      /\ (fields_given fs = false -> q_select q = None)
      /\ (forall f fields,
             fs = Some (f :: fields) ->
             exists sent,
               q_select q = Some sent
               /\ forall k,
                    In k sent <->
                    k <> "abstract"
                    /\ (In k (f :: fields) \/ k = "id"
                        \/ (k = "abstract_inverted_index"
                            /\ In "abstract" (f :: fields)))).
Proof.
  intros c ids fs t [Hlo Hhi]. exists (batch_query ids fs).
  assert (Hrun : get_batch_work_details c ids fs t
                 = m_try_except (get_batch_work_details_body c ids fs)
                     (fun e => mret [("error", JStr (exn_str e));
                                     ("works", JList [])]) t).
  { unfold get_batch_work_details.
    destruct ids as [| id ids]; [simpl in Hlo; lia |].
    destruct (Nat.ltb_spec MAX_IDS (length (id :: ids))) as [Hlt | _];
      [unfold MAX_IDS in Hlt; lia | reflexivity]. }
  rewrite Hrun, get_batch_guarded. cbn [fst snd].
  split; [reflexivity |]. split; [reflexivity |]. split; [reflexivity |].
  split.
  - intros Hnone. unfold batch_query.
    destruct fs as [[| f fields] |]; [reflexivity | discriminate | reflexivity].
  - intros f fields ->. exists (api_select_fields (f :: fields)).
    split; [reflexivity | apply api_select_fields_In].
Qed.

(** The theorem at two identifiers, one of them a URL, asked for the
    abstract: the index is requested in its place. *)
Lemma get_batch_work_details_request_witness :
  1 <= length ["https://openalex.org/W1"; "W2"] <= 50
  /\ exists q sent,
       fst (get_batch_work_details (Sample.serving_client None [])
              ["https://openalex.org/W1"; "W2"] (Some ["abstract"]) [])
       = [CallGet q]
       /\ q_filter q = [("ids", JObj [("openalex", JStr "W1|W2")])]
       /\ q_select q = Some sent
       /\ In "abstract_inverted_index" sent
       /\ ~ In "abstract" sent.
Proof.
  assert (Hlen : 1 <= length ["https://openalex.org/W1"; "W2"] <= 50)
    by (simpl; lia).
  split; [exact Hlen |].
  destruct (get_batch_work_details_request (Sample.serving_client None [])
              ["https://openalex.org/W1"; "W2"] (Some ["abstract"]) [] Hlen)
    as (q & Hcalls & _ & Hfilter & _ & Hselect).
  destruct (Hselect "abstract" [] eq_refl) as (sent & Hsent & Hin).
  exists q, sent. split; [exact Hcalls |]. split; [exact Hfilter |].
  split; [exact Hsent |]. split.
  - apply Hin. split; [discriminate |]. right. right.
    split; [reflexivity | now left].
  - intros Habs. apply Hin in Habs as [Hne _]. now apply Hne.
Defined.

(** X17.  Every record of a batch answer is a mapping.  When fields are
    given, its keys are among them, "id" and "doi".  When no fields are
    given or "abstract" is among them, it has an "abstract" key, null
    when no abstract could be built. *)
Theorem get_batch_work_details_record_keys :
  forall (c : client) (ids : list string) (fs : option (list string))
         (t : trace) (resp : dict) (works : list json),
    snd (get_batch_work_details c ids fs t) = Ok resp ->
    Dict.get resp "works" = Some (JList works) ->
    forall w, In w works ->
      exists d,
        w = JObj d
        /\ (forall f fields k,
               fs = Some (f :: fields) ->
               In k (Dict.keys d) ->
               In k (f :: fields) \/ k = "id" \/ k = "doi")
        /\ (fields_given fs = false
            \/ str_in "abstract" (default [] fs) = true ->
            Dict.mem d "abstract" = true).
Proof.
  intros c ids fs t resp works Hrun Hworks.
  apply (get_batch_works_Forall
           (fun d =>
              (forall f fields k,
                  fs = Some (f :: fields) ->
                  In k (Dict.keys d) ->
                  In k (f :: fields) \/ k = "id" \/ k = "doi")
              /\ (fields_given fs = false
                  \/ str_in "abstract" (default [] fs) = true ->
                  Dict.mem d "abstract" = true))
           c ids fs t resp works); [| exact Hrun | exact Hworks].
  intros work_dict getitem. split.
  - intros f fields k ->. apply batch_item_keys.
  - apply batch_item_has_abstract.
Qed.

(** The theorem at a batch of one indexed record, asked for its
    abstract. *)
Lemma get_batch_work_details_record_keys_witness :
  exists d,
    snd (get_batch_work_details
           (Sample.serving_client None
              [RMapping (Sample.indexed_work (Ok (JStr "the cat sat")))])
           ["W2"] (Some ["abstract"]) [])
    = Ok [("works", JList [JObj d])]
    /\ (forall k, In k (Dict.keys d) ->
                  In k ["abstract"] \/ k = "id" \/ k = "doi")
    /\ Dict.mem d "abstract" = true.
Proof.
  eexists. split; [reflexivity |].
  destruct (get_batch_work_details_record_keys
              (Sample.serving_client None
                 [RMapping (Sample.indexed_work (Ok (JStr "the cat sat")))])
              ["W2"] (Some ["abstract"]) [] _ _ eq_refl eq_refl
              _ (or_introl eq_refl))
    as (d & Heq & Hkeys & Habs).
  injection Heq as <-.
  split; [exact (fun k => Hkeys "abstract" [] k eq_refl) |].
  apply Habs. right. reflexivity.
Defined.

(** ** More on single lookups *)

(** X18.  When fields are given and "abstract" is not among them,
    [get_work_details] makes one request, for the given fields with "id"
    and "doi" added and none twice, and returns the record the client
    delivers as it is: nothing is filtered locally. *)
Theorem get_work_details_pushes_selection :
  forall (c : client) (work_id : string) (f : string) (fields : list string)
         (t : trace),
    str_in "abstract" (f :: fields) = false ->
    exists select,
      fst (get_work_details c work_id (Some (f :: fields)) t)
      = t ++ [CallGetItem (Some select) work_id]
      /\ List.NoDup select
      /\ (forall k, In k select <->
                    In k (f :: fields) \/ k = "id" \/ k = "doi")
      /\ (forall w,
             works_getitem c (Some select) work_id = Ok (Some w) ->
             w_items w <> [] ->
             snd (get_work_details c work_id (Some (f :: fields)) t)
             = Ok (w_items w)).
Proof.
  intros c work_id f fields t Habs.
  exists (remove_dups ((f :: fields) ++ ["id"; "doi"])).
  unfold get_work_details, get_work_details_body, m_try_except, mbind,
    request, mret.
  cbn [fields_given default from_option id negb orb andb]. rewrite Habs.
  split; [| split; [| split]].
  - destruct (works_getitem c _ work_id) as [[w |] | e]; try reflexivity.
    destruct (no_record (Some w)); reflexivity.
  - apply NoDup_ListNoDup, NoDup_remove_dups.
  - intros k.
    rewrite <- (list_elem_of_In (remove_dups _) k), elem_of_remove_dups,
      list_elem_of_In, in_app_iff.
    simpl. intuition congruence.
  - intros w Hfound Hitems. rewrite Hfound. cbn [no_record].
    destruct (w_items w); [contradiction | reflexivity].
Qed.

(** The theorem at a request for the title of W1. *)
Lemma get_work_details_pushes_selection_witness :
  str_in "abstract" ["title"] = false
  /\ snd (get_work_details
            (Sample.serving_client (Some (plain Sample.record_w1)) [])
            "W1" (Some ["title"]) [])
     = Ok Sample.record_w1.
Proof.
  split; [reflexivity |].
  destruct (get_work_details_pushes_selection
              (Sample.serving_client (Some (plain Sample.record_w1)) [])
              "W1" "title" [] [] eq_refl)
    as (select & _ & _ & _ & Hresult).
  exact (Hresult (plain Sample.record_w1) eq_refl
           (fun H => eq_ind Sample.record_w1
                       (fun d => match d with [] => False | _ => True end)
                       I [] H)).
Defined.

(** X19.  When "abstract" is among the given fields, [get_work_details]
    fetches the full record with one request without a selection.  For a
    record found, the answer has an "abstract" key holding the generated
    abstract, or null; its keys are among the given fields, "id" and
    "doi"; and the inverted index is returned exactly as delivered when it
    was asked for, and not at all otherwise. *)
Theorem get_work_details_selects_after_abstract :
  forall (c : client) (work_id : string) (f : string) (fields : list string)
         (t : trace) (w : work),
    str_in "abstract" (f :: fields) = true ->
    works_getitem c None work_id = Ok (Some w) ->
    w_items w <> [] ->
    exists d,
      get_work_details c work_id (Some (f :: fields)) t
      = (t ++ [CallGetItem None work_id], Ok d)
      /\ Dict.get d "abstract" = Some (attached_abstract w)
      /\ (forall k, In k (Dict.keys d) ->
                    In k (f :: fields) \/ k = "id" \/ k = "doi")
      /\ Dict.get d "abstract_inverted_index"
         = if str_in "abstract_inverted_index" (f :: fields)
           then Dict.get (w_items w) "abstract_inverted_index"
           else None.
Proof.
  intros c work_id f fields t w Habs Hfound Hitems.
  unfold get_work_details, get_work_details_body, m_try_except, mbind,
    request, mret.
  cbn [fields_given default from_option id negb orb andb].
  rewrite Habs, Hfound. cbn [no_record].
  destruct (w_items w) as [| kv items] eqn:Hw; [contradiction |].
  eexists. split; [reflexivity |].
  unfold shape_full_record. rewrite Hw.
  cbn [fields_given default from_option id negb orb andb].
  set (attached := match w_abstract w with
                   | Ok generated => Dict.set (kv :: items) "abstract" generated
                   | Raise _ => Dict.set (kv :: items) "abstract" JNull
                   end).
  assert (Hattached : Dict.get attached "abstract"
                      = Some (attached_abstract w)).
  { unfold attached, attached_abstract.
    destruct (w_abstract w); apply get_set_eq. }
  assert (Hindex : Dict.get attached "abstract_inverted_index"
                   = Dict.get (kv :: items) "abstract_inverted_index").
  { unfold attached. destruct (w_abstract w);
      now rewrite get_set_ne by discriminate. }
  set (selected := _select_fields attached (f :: fields)).
  assert (Hsel_abs : Dict.get selected "abstract"
                     = Some (attached_abstract w)).
  { unfold selected. rewrite get_select_fields.
    replace (str_in "abstract" ((f :: fields) ++ ["id"; "doi"])) with true;
      [exact Hattached |].
    symmetry. apply str_in_In, in_app_iff. left. now apply str_in_In. }
  assert (Hsel_keys : forall k v,
             Dict.get selected k = Some v ->
             In k (f :: fields) \/ k = "id" \/ k = "doi").
  { intros k v H. unfold selected in H. rewrite get_select_fields in H.
    destruct (str_in k ((f :: fields) ++ ["id"; "doi"])) eqn:Hin;
      [| discriminate].
    apply str_in_In, in_app_iff in Hin. simpl in Hin. simpl.
    intuition (subst; auto). }
  assert (Hsel_index : Dict.get selected "abstract_inverted_index"
                       = if str_in "abstract_inverted_index" (f :: fields)
                         then Dict.get (kv :: items) "abstract_inverted_index"
                         else None).
  { unfold selected. rewrite get_select_fields.
    replace (str_in "abstract_inverted_index"
               ((f :: fields) ++ ["id"; "doi"]))
      with (str_in "abstract_inverted_index" (f :: fields)).
    - now rewrite Hindex.
    - unfold str_in. rewrite existsb_app. simpl. now rewrite orb_false_r. }
  destruct (str_in "abstract_inverted_index" (f :: fields)) eqn:Hreq.
  - rewrite !andb_false_r. repeat split; eauto.
    intros k Hk. apply keys_get_Some in Hk as [v Hv]. eauto.
  - rewrite andb_true_r.
    assert (Hno : Dict.mem selected "abstract_inverted_index" = false).
    { unfold Dict.mem. now rewrite Hsel_index. }
    rewrite Hno, !andb_false_r. repeat split; eauto.
    intros k Hk. apply keys_get_Some in Hk as [v Hv]. eauto.
Qed.

(** The theorem at an indexed record asked for its abstract. *)
Lemma get_work_details_selects_after_abstract_witness :
  exists d,
    get_work_details
      (Sample.serving_client
         (Some (Sample.indexed_work (Ok (JStr "the cat sat")))) [])
      "W2" (Some ["abstract"]) []
    = ([CallGetItem None "W2"], Ok d)
    /\ Dict.get d "abstract" = Some (JStr "the cat sat")
    /\ Dict.get d "abstract_inverted_index" = None.
Proof.
  destruct (get_work_details_selects_after_abstract
              (Sample.serving_client
                 (Some (Sample.indexed_work (Ok (JStr "the cat sat")))) [])
              "W2" "abstract" [] []
              (Sample.indexed_work (Ok (JStr "the cat sat")))
              eq_refl eq_refl
              (fun H => eq_ind (w_items (Sample.indexed_work
                                           (Ok (JStr "the cat sat"))))
                          (fun d => match d with [] => False | _ => True end)
                          I [] H))
    as (d & Hrun & Habs & _ & Hindex).
  exists d. split; [exact Hrun | split; [exact Habs | exact Hindex]].
Defined.

(** ** N-grams *)

(** X20.  [get_work_ngrams] looks the record up, asks the client for its
    n-grams and returns the client's answer unchanged.  When either request
    raises, an exception whose response has status 404 is reported as
    n-grams not found for the stripped identifier; one with another
    status, or without a [response] attribute, is reported with the text
    of the exception. *)
Theorem get_work_ngrams_outcomes :
  forall (c : client) (work_id : string) (t : trace),
    (forall w ngrams,
        works_getitem c None (strip_url_prefix work_id) = Ok (Some w) ->
        work_ngrams c w = Ok ngrams ->
        get_work_ngrams c work_id t
        = (t ++ [CallGetItem None (strip_url_prefix work_id); CallNgrams w],
           Ok ngrams))
    /\ (forall e,
           works_getitem c None (strip_url_prefix work_id) = Raise e
           \/ (exists w,
                  works_getitem c None (strip_url_prefix work_id)
                  = Ok (Some w)
                  /\ work_ngrams c w = Raise e) ->
           (exn_response e = ResponseStatus 404 ->
            snd (get_work_ngrams c work_id t)
            = Ok [("error",
                   JStr ("N-grams not found for work ID "
                         ++ strip_url_prefix work_id ++ "."))])
           /\ (forall status,
                  exn_response e = ResponseStatus status ->
                  status <> 404%Z ->
                  snd (get_work_ngrams c work_id t)
                  = Ok [("error", JStr (exn_str e))])
           /\ (exn_response e = NoResponseAttr ->
               snd (get_work_ngrams c work_id t)
               = Ok [("error", JStr (exn_str e))])).
Proof.
  intros c work_id t. split.
  - intros w ngrams Hfound Hngrams.
    unfold get_work_ngrams, get_work_ngrams_body, m_try_except, mbind,
      request.
    rewrite Hfound, Hngrams. now rewrite <- app_assoc.
  - intros e Hraised.
    assert (Hhandled : snd (get_work_ngrams c work_id t)
                       = snd (ngrams_handler (strip_url_prefix work_id) e
                                (fst (get_work_ngrams_body c
                                        (strip_url_prefix work_id) t)))).
    { unfold get_work_ngrams, get_work_ngrams_body, m_try_except, mbind,
        request.
      destruct Hraised as [-> | (w & -> & ->)]; reflexivity. }
    rewrite Hhandled. unfold ngrams_handler. repeat split.
    + intros ->. reflexivity.
    + intros status -> Hstatus.
      destruct (Z.eqb_spec status 404); [contradiction | reflexivity].
    + intros ->. reflexivity.
Qed.

(** The theorem at a client that answers every request with status 404. *)
Lemma get_work_ngrams_outcomes_witness :
  snd (get_work_ngrams (Sample.failing_client (Fixture.http_error 404))
         "https://openalex.org/W9" [])
  = Ok [("error", JStr "N-grams not found for work ID W9.")].
Proof.
  exact (proj1 (proj2 (get_work_ngrams_outcomes
                         (Sample.failing_client (Fixture.http_error 404))
                         "https://openalex.org/W9" [])
                  (Fixture.http_error 404) (or_introl eq_refl))
           eq_refl).
Defined.

(** ** Filters *)

Section Filters.

Lemma set_fresh (d : dict) (k : string) (v : json) :
  ~ In k (Dict.keys d) -> Dict.set d k v = d ++ [(k, v)].
Proof.
  induction d as [| [k' v'] d IH]; simpl; [reflexivity |].
  intros Hfresh. destruct (String.eqb_spec k' k) as [-> | Hne]; [tauto |].
  rewrite IH by tauto. reflexivity.
Qed.

Lemma fold_set_fresh (d acc : dict) :
  List.NoDup (Dict.keys acc ++ Dict.keys d) ->
  List.fold_left (fun a kv => Dict.set a (fst kv) (snd kv)) d acc = acc ++ d.
Proof.
  revert acc. induction d as [| [k v] d IH]; intros acc Hnd; simpl.
  - now rewrite app_nil_r.
  - rewrite set_fresh.
    + rewrite IH.
      * now rewrite <- app_assoc.
      * unfold Dict.keys in *. rewrite List.map_app, <- app_assoc. exact Hnd.
    + simpl in Hnd. apply List.NoDup_remove_2 in Hnd.
      rewrite in_app_iff in Hnd. tauto.
Qed.

End Filters.

Section FilterRequests.

Implicit Types (c : client) (q : query) (t : trace).

Lemma search_query_of_filter (search_field search_query : string) q :
  search_query_of search_field search_query = Ok q -> q_filter q = [].
Proof.
  unfold search_query_of.
  destruct (String.eqb search_field "default"); [now intros [= <-] |].
  destruct (str_in search_field _); [| discriminate].
  destruct (String.eqb search_field "display_name"); now intros [= <-].
Qed.

Lemma with_sort_filter q (sort : option (list (string * string))) :
  q_filter (with_sort q sort) = q_filter q.
Proof. destruct sort as [[| kv rest] |]; reflexivity. Qed.

Lemma with_sort_search q (sort : option (list (string * string))) :
  q_search (with_sort q sort) = q_search q.
Proof. destruct sort as [[| kv rest] |]; reflexivity. Qed.

Lemma with_filter_search q (filters : option dict) :
  q_search (with_filter q filters) = q_search q.
Proof. destruct filters as [[| kv rest] |]; reflexivity. Qed.

(** A mapping of filters is attached to the query as it is. *)
Lemma with_filter_filter q (filters : option dict) :
  q_filter q = [] ->
  List.NoDup (Dict.keys (default [] filters)) ->
  q_filter (with_filter q filters) = default [] filters.
Proof.
  intros Hempty Hnd. destruct filters as [[| kv rest] |]; simpl; auto.
  apply (fold_set_fresh (kv :: rest) []). exact Hnd.
Qed.

End FilterRequests.

(** X21.  The filters of a search reach the client as given.  When the
    search field is accepted and the count request succeeds,
    [search_works] asks the client for a page of a query that searches as
    the counted query does and carries exactly the given filters, dotted
    keys included, or no filter when none or an empty mapping is given;
    the only request after that is, at most, one for the metadata of that
    same query. *)
Theorem search_works_sends_filters :
  forall (c : client) (search_query : string) (filters : option dict)
         (search_field : string) (fs : option (list string))
         (sort : option (list (string * string))) (summarize : bool)
         (per_page : Z) (cursor : option string) (t : trace)
         (q0 : query) (n : Z),
    List.NoDup (Dict.keys (default [] filters)) ->
    search_query_of search_field search_query = Ok q0 ->
    works_count c q0 = Ok n ->
    exists q rest,
      fst (search_works c search_query filters search_field fs sort
             summarize per_page cursor t)
      = t ++ CallCount q0 :: CallNextPage q per_page cursor :: rest
      /\ q_filter q = default [] filters
      /\ q_search q = q_search q0
      /\ (rest = [] \/ rest = [CallGetMeta q]).
Proof.
  intros c search_query filters search_field fs sort summarize per_page
    cursor t q0 n Hnd Hq Hn.
  unfold search_works. rewrite guarded_silent.
  unfold search_works_body. unfold mbind at 1, lift at 1. rewrite Hq.
  unfold mbind at 1, request at 1. rewrite Hn.
  rewrite mbind_silent by (intros; apply listing_tail_silent).
  match goal with
  | |- context [first_page c ?q per_page cursor] => exists q
  end.
  match goal with
  | |- context [first_page c ?q per_page cursor] =>
      assert (Hfilter : q_filter q = default [] filters
                        /\ q_search q = q_search q0)
  end.
  { destruct (negb summarize && fields_given fs);
      cbn [with_select q_filter q_search];
      rewrite with_sort_filter, with_sort_search, with_filter_search;
      (split; [| reflexivity]);
      apply with_filter_filter;
      eauto using search_query_of_filter. }
  destruct Hfilter as [Hfilter Hsearch].
  match goal with
  | |- context [first_page c ?q per_page cursor] =>
      destruct (first_page_requests c q per_page cursor
                  (t ++ [CallCount q0])) as [-> | ->]
  end.
  - exists []. rewrite <- app_assoc. simpl. auto.
  - eexists. rewrite <- app_assoc. simpl. split; [reflexivity |]. auto.
Qed.

(** The theorem at a filter on a year and on a dotted key. *)
Lemma search_works_sends_filters_witness :
  List.NoDup (Dict.keys [("publication_year", JNum 2020);
                         ("authorships.institutions.ror", JStr "r1")])
  /\ exists q rest,
       fst (search_works (Sample.serving_client None []) "cats"
              (Some [("publication_year", JNum 2020);
                     ("authorships.institutions.ror", JStr "r1")])
              "title" None None true 25 (Some "*") [])
       = CallCount (mkQuery (SearchFilter "title" "cats") [] [] None)
           :: CallNextPage q 25 (Some "*") :: rest
       /\ q_filter q = [("publication_year", JNum 2020);
                        ("authorships.institutions.ror", JStr "r1")].
Proof.
  assert (Hnd : List.NoDup
                  (Dict.keys [("publication_year", JNum 2020);
                              ("authorships.institutions.ror", JStr "r1")])).
  { repeat constructor; simpl; intuition discriminate. }
  split; [exact Hnd |].
  destruct (search_works_sends_filters (Sample.serving_client None []) "cats"
              (Some [("publication_year", JNum 2020);
                     ("authorships.institutions.ror", JStr "r1")])
              "title" None None true 25 (Some "*") []
              (mkQuery (SearchFilter "title" "cats") [] [] None) 0%Z
              Hnd eq_refl eq_refl)
    as (q & rest & Hcalls & Hfilter & _).
  exists q, rest. split; [exact Hcalls | exact Hfilter].
Defined.

(** ** More on abstract reconstruction *)

Section Overwriting.

Implicit Types (words : list string) (idx : inverted_index) (i : nat).

Lemma existsb_eqb_In i (ps : list nat) : existsb (Nat.eqb i) ps = true <-> In i ps.
Proof.
  rewrite existsb_exists. split.
  - intros (x & Hx & Heq). apply Nat.eqb_eq in Heq. now subst.
  - intros H. exists i. split; [assumption | apply Nat.eqb_refl].
Qed.

(** The whole index, whatever it records: each entry overwrites the slots
    it names. *)
Lemma place_entries_overwrites idx : forall words,
  exists words',
    place_entries words
      (List.map (fun wp => (fst wp,
                            JList (List.map (fun p => JNum (Z.of_nat p))
                                            (snd wp)))) idx)
    = Ok words'
    /\ length words' = Nat.max (length words) (index_slots idx)
    /\ (forall i, slot words' i = word_at idx (slot words i) i).
Proof.
  induction idx as [| [word ps] idx IH]; intros words.
  - exists words. simpl. repeat split. unfold index_slots. simpl. lia.
  - destruct (place_positions_nat ps word words)
      as (words1 & Hrun1 & Hlen1 & Hin1 & Hout1).
    destruct (IH words1) as (words' & Hrun & Hlen & Hslot).
    exists words'. cbn [List.map place_entries fst snd py_iter rbind].
    rewrite Hrun1. cbn [rbind]. split; [exact Hrun |]. split.
    + rewrite Hlen, Hlen1, index_slots_cons. lia.
    + intros i. rewrite Hslot. cbn [word_at]. f_equal.
      destruct (existsb (Nat.eqb i) ps) eqn:Hi.
      * apply Hin1, existsb_eqb_In, Hi.
      * apply Hout1. intros H. apply existsb_eqb_In in H. congruence.
Qed.

End Overwriting.

(** X22.  Reconstruction succeeds on every non-empty index of zero-based
    positions, injective or not: the text has one token per slot up to the
    largest position, and a slot recorded by several entries holds the word
    of the last of them in the order of the index. *)
Theorem reconstruct_abstract_last_entry_wins :
  forall idx : inverted_index,
    idx <> [] ->
    exists words,
      reconstruct_abstract (index_json idx)
      = Ok (JStr (String.concat " " words))
      /\ length words = index_slots idx
      /\ (forall i, i < length words ->
                    words !! i = Some (word_at idx EmptyString i)).
Proof.
  intros idx Hne.
  destruct (place_entries_overwrites idx []) as (words & Hrun & Hlen & Hslot).
  exists words. unfold reconstruct_abstract, index_json.
  destruct idx as [| wp idx]; [contradiction |].
  cbn [List.map truthy]. cbn [List.map] in Hrun. rewrite Hrun. cbn [rbind].
  simpl in Hlen. repeat split; [exact Hlen |].
  intros i Hi. rewrite slot_lookup by exact Hi. rewrite Hslot.
  unfold slot at 1. now rewrite lookup_nil.
Qed.

(** The theorem at an index that records position 0 for "a" and then for
    "b". *)
Lemma reconstruct_abstract_last_entry_wins_witness :
  Fixture.clash_index <> []
  /\ exists words,
       reconstruct_abstract (index_json Fixture.clash_index)
       = Ok (JStr (String.concat " " words))
       /\ words !! 0 = Some "b"
       /\ words !! 1 = Some "a".
Proof.
  assert (Hne : Fixture.clash_index <> []) by discriminate.
  split; [exact Hne |].
  destruct (reconstruct_abstract_last_entry_wins Fixture.clash_index Hne)
    as (words & Hrun & Hlen & Hslots).
  exists words. split; [exact Hrun |].
  split; apply Hslots; rewrite Hlen; vm_compute; lia.
Defined.

(** X23.  A negative position never lengthens the word list: it writes
    counting from the end of the list, and raises [IndexError] when it
    reaches before the start.  An index whose first position is negative
    therefore cannot be rebuilt, and the batch lookup, which has no field
    list here and no subscript to use, answers with a null abstract. *)
Theorem negative_position_fails_softly :
  forall (words : list string) (n : Z) (word : string),
    (n < 0)%Z ->
    ((- Z.of_nat (length words) <= n)%Z ->
     exists words',
       place_word words n word = Ok words'
       /\ length words' = length words
       /\ words' !! Z.to_nat (Z.of_nat (length words) + n) = Some word)
    /\ ((n < - Z.of_nat (length words))%Z ->
        exists e, place_word words n word = Raise e
                  /\ exn_class_of e = IndexError)
    /\ (forall work_dict ps rest,
           Dict.get work_dict "abstract_inverted_index"
           = Some (JObj ((word, JList (JNum n :: ps)) :: rest)) ->
           (exists e,
               reconstruct_abstract
                 (JObj ((word, JList (JNum n :: ps)) :: rest)) = Raise e)
           /\ Dict.get (batch_item work_dict None None) "abstract"
              = Some JNull).
Proof.
  intros words n word Hneg. unfold place_word.
  destruct (Z.leb_spec 0 n) as [| _]; [lia |].
  split; [| split].
  - intros Hin. destruct (Z.leb_spec (- Z.of_nat (length words)) n); [| lia].
    eexists. split; [reflexivity |]. split; [apply length_insert |].
    apply list_lookup_insert_eq. lia.
  - intros Hout. destruct (Z.leb_spec (- Z.of_nat (length words)) n); [lia |].
    eexists. split; reflexivity.
  - intros work_dict ps rest Hindex.
    assert (Hraise : exists e,
               reconstruct_abstract
                 (JObj ((word, JList (JNum n :: ps)) :: rest)) = Raise e).
    { unfold reconstruct_abstract.
      cbn [truthy place_entries py_iter rbind place_positions py_index].
      unfold place_word. cbn [length Z.of_nat Z.opp].
      repeat match goal with
             | |- context [(?a <=? n)%Z] =>
                 destruct (Z.leb_spec a n); [simpl in *; lia |]
             end.
      simpl. eauto. }
    split; [exact Hraise |].
    destruct Hraise as [e He].
    unfold batch_item. cbn [fields_given negb orb andb].
    unfold Dict.mem, dict_get_default. rewrite !Hindex, He.
    match goal with
    | |- Dict.get (if ?b then _ else _) _ = _ => destruct b
    end.
    + rewrite get_del_ne by discriminate. apply get_set_eq.
    + apply get_set_eq.
Qed.

(** The theorem at position -1: written over the last word of a list,
    refused on the empty list. *)
Lemma negative_position_witness :
  (-1 < 0)%Z
  /\ (exists words',
         place_word ["a"; "b"] (-1) "z" = Ok words'
         /\ length words' = 2
         /\ words' !! 1 = Some "z")
  /\ (exists e, place_word [] (-1) "z" = Raise e
                /\ exn_class_of e = IndexError).
Proof.
  assert (Hneg : (-1 < 0)%Z) by lia.
  split; [exact Hneg | split].
  - apply (proj1 (negative_position_fails_softly ["a"; "b"] (-1) "z" Hneg)).
    simpl. lia.
  - apply (proj1 (proj2 (negative_position_fails_softly [] (-1) "z" Hneg))).
    simpl. lia.
Defined.
